(** * Billboard dashboard (main.py): filtering and aggregation pipeline

    A shallow embedding of the data pipeline of [main.py]: the sidebar
    widgets, the boolean-mask filter that produces
    [filtered_data], the pandas and Vega-Lite aggregations that feed the
    charts, the overview metrics and the custom-analysis chart with the
    production of its specification.

    Floating-point values are IEEE-754 binary64 numbers, taken from the
    standard library's [SpecFloat] (precision 53, [emax] 1024). *)

From Stdlib Require Import List ZArith Bool String Ascii Lia QArith Qabs.
From Stdlib Require Import Permutation Sorted DecimalString.
From Stdlib Require Import Floats.SpecFloat.
Import ListNotations.
Local Open Scope string_scope.
Local Open Scope Z_scope.

(** ** Data model *)

(** One record of [merged_data.csv].  The key columns are populated in
    every record; a [mood_happy] cell may be missing, which pandas reads
    as NaN and which is [None] here. *)
Record Row := mkRow {
  year : Z;
  genre_full : string;
  weeks_on_chart : Z;
  mood_happy : option string;
  gender : string;
  peak_position : Z;
  bpm : Z;
  loudness : Z;
  song : string;
  artist : string
}.

(** A DataFrame is the ordered sequence of its records. *)
Definition DataFrame := list Row.

(** ** Subsequences *)

(** [subseq s l]: [s] is obtained from [l] by deleting records, keeping
    the others in place. *)
Inductive subseq {A : Type} : list A -> list A -> Prop :=
| subseq_nil : subseq [] []
| subseq_skip x s l : subseq s l -> subseq s (x :: l)
| subseq_keep x s l : subseq s l -> subseq (x :: s) (x :: l).

(** ** binary64 arithmetic *)

(** Conversion of an integer to binary64 (Python [float(n)], a
    JavaScript number holding a count). *)
Definition Z2SF (z : Z) : spec_float := binary_normalize 53 1024 z 0 false.

(** binary64 division, [/] on Python floats and on JavaScript numbers. *)
Definition float_div (x y : spec_float) : spec_float := SFdiv 53 1024 x y.

(** The quotient of two integer counts, computed in binary64. *)
Definition ratio (k n : Z) : spec_float := float_div (Z2SF k) (Z2SF n).

Definition float_zero : spec_float := S754_zero false.
Definition float_one : spec_float := SFone 53 1024.

(** The rational value of a finite binary64 number. *)
Definition SF2Q (f : spec_float) : Q :=
  match f with
  | S754_finite s m e =>
      let z := if s then Zneg m else Zpos m in
      match e with
      | Z0 => z # 1
      | Zpos p => (z * 2 ^ Zpos p) # 1
      | Zneg p => z # (2 ^ p)
      end
  | _ => 0%Q
  end.

Definition is_finite (f : spec_float) : bool :=
  match f with
  | S754_finite _ _ _ | S754_zero _ => true
  | _ => false
  end.

(** The sum of a list of rationals. *)
Definition Qsum (l : list Q) : Q := fold_right Qplus 0%Q l.

(** [inbetween N D q l]: the location [l] places the quotient [N / D]
    relative to the integer [q] and to the midpoint of [q] and [q + 1]. *)
Definition inbetween (N D q : Z) (l : location) : Prop :=
  match l with
  | loc_Exact => N = q * D
  | loc_Inexact c => q * D < N < (q + 1) * D /\ (2 * N ?= (2 * q + 1) * D) = c
  end.

(** ** Sidebar widgets *)

(** [st.multiselect]: the front end sends back the positions of the
    chosen options; the widget returns the options at these positions. *)
Definition multiselect {A : Type} (options : list A) (picked : list nat) : list A :=
  flat_map (fun i => match nth_error options i with
                     | Some o => [o]
                     | None => []
                     end) picked.

(** The options of the year selector, main.py line 17. *)
Definition year_options : list Z := [1969; 2019].

Definition selected_years (picked : list nat) : list Z :=
  multiselect year_options picked.

(** ** Grouping *)

Section GroupBy.
Context {K : Type}.
Variable Keqb : K -> K -> bool.
Variable Kleb : K -> K -> bool.

(** The distinct keys of a list, in order of first appearance. *)
Fixpoint distinct (l : list K) : list K :=
  match l with
  | [] => []
  | x :: t => x :: filter (fun y => negb (Keqb y x)) (distinct t)
  end.

Fixpoint insert_key (k : K) (l : list K) : list K :=
  match l with
  | [] => [k]
  | x :: t => if Kleb k x then k :: x :: t else x :: insert_key k t
  end.

(** pandas sorts the group keys ([sort=True] is the default). *)
Definition sort_keys (l : list K) : list K := fold_right insert_key [] l.

Variable key : Row -> K.

(** The records of the group of key [k]. *)
Definition get_group (k : K) (df : DataFrame) : DataFrame :=
  filter (fun r => Keqb (key r) k) df.

Definition group_keys (df : DataFrame) : list K :=
  sort_keys (distinct (map key df)).

(** [df.groupby(key)[col].apply(f).reset_index(name=...)]: one record
    per key present in [df], holding the key and [f] of its group. *)
Definition groupby_apply {V : Type} (f : DataFrame -> V) (df : DataFrame)
  : list (K * V) :=
  map (fun k => (k, f (get_group k df))) (group_keys df).
End GroupBy.

(** [Series.unique()]: the distinct values in order of first appearance. *)
Definition unique (l : list string) : list string := distinct String.eqb l.

Definition selected_genres (merged_data : DataFrame) (picked : list nat) : list string :=
  multiselect (unique (map genre_full merged_data)) picked.

(** Keys of [groupby(['genre_full', 'year'])]: tuples, compared
    componentwise and ordered lexicographically. *)
Definition genre_year_eqb (a b : string * Z) : bool :=
  String.eqb (fst a) (fst b) && Z.eqb (snd a) (snd b).

Definition genre_year_leb (a b : string * Z) : bool :=
  match String.compare (fst a) (fst b) with
  | Lt => true
  | Eq => Z.leb (snd a) (snd b)
  | Gt => false
  end.

(** ** Filter engine *)

(** [Series.isin] on an integer and on a string column. *)
Definition isin_Z (v : Z) (values : list Z) : bool := existsb (Z.eqb v) values.
Definition isin_str (v : string) (values : list string) : bool :=
  existsb (String.eqb v) values.

(** The boolean mask of main.py lines 36-38, for one record. *)
Definition mask (years : list Z) (genres : list string) (min_weeks : Z) (r : Row) : bool :=
  isin_Z (year r) years && isin_str (genre_full r) genres
  && (min_weeks <=? weeks_on_chart r).

(** [merged_data[mask]]: the records whose mask is true, in order. *)
Definition filtered_data (merged_data : DataFrame) (years : list Z)
    (genres : list string) (min_weeks : Z) : DataFrame :=
  filter (mask years genres min_weeks) merged_data.

(** The names bound by the script that the filter reads and writes. *)
Record Store := mkStore {
  st_merged_data : DataFrame;
  st_filtered_data : DataFrame
}.

(** The assignment of main.py lines 35-39, as a store transformer. *)
Definition assign_filtered_data (years : list Z) (genres : list string)
    (min_weeks : Z) (s : Store) : Store :=
  {| st_merged_data := st_merged_data s;
     st_filtered_data := filtered_data (st_merged_data s) years genres min_weeks |}.

(** ** Mood aggregation (tab 2) *)

(** [x == 'happy'] on one cell: a missing cell compares unequal. *)
Definition is_happy (r : Row) : bool :=
  match mood_happy r with
  | Some s => String.eqb s "happy"
  | None => false
  end.

Definition count_rows (df : DataFrame) : Z := Z.of_nat (List.length df).

(** [(x == 'happy').mean()]: the sum of the booleans over their count,
    in binary64; on an empty series this is [0.0 / 0.0], NaN. *)
Definition mean_happy (g : DataFrame) : spec_float :=
  ratio (count_rows (filter is_happy g)) (count_rows g).

(** main.py lines 99-104. *)
Definition year_stats (fd : DataFrame) : list (Z * spec_float) :=
  groupby_apply Z.eqb Z.leb year mean_happy fd.

(** main.py lines 121-126. *)
Definition genre_stats (fd : DataFrame) : list ((string * Z) * spec_float) :=
  groupby_apply genre_year_eqb genre_year_leb
    (fun r => (genre_full r, year r)) mean_happy fd.

(** ** Share aggregation in the chart (tabs 1 and 3) *)

(** Keys of the Vega-Lite [groupby=['year', inner]] aggregate. *)
Definition year_key_eqb (a b : Z * string) : bool :=
  Z.eqb (fst a) (fst b) && String.eqb (snd a) (snd b).

Definition Zsum (l : list Z) : Z := fold_right Z.add 0 l.

(** The output of [transform_aggregate]. *)
Record CountRow := mkCountRow {
  cr_year : Z;
  cr_key : string;
  cr_count : Z
}.

(** The output of the whole transform chain. *)
Record ShareRow := mkShareRow {
  sh_year : Z;
  sh_key : string;
  sh_count : Z;
  sh_total : Z;
  sh_proportion : spec_float
}.

Section Shares.
(** The inner grouping field: [genre_full] or [gender]. *)
Variable inner : Row -> string.

Definition year_key (r : Row) : Z * string := (year r, inner r).

(** [transform_aggregate(count='count()', groupby=['year', inner])]:
    one record per key present, in order of first appearance. *)
Definition transform_aggregate (fd : DataFrame) : list CountRow :=
  map (fun k => mkCountRow (fst k) (snd k)
                  (count_rows (get_group year_key_eqb year_key k fd)))
      (distinct year_key_eqb (map year_key fd)).

(** [transform_joinaggregate(total='sum(count)', groupby=['year'])]:
    every record receives the sum of the counts of its year. *)
Definition transform_joinaggregate (rows : list CountRow) : list (CountRow * Z) :=
  map (fun c => (c, Zsum (map cr_count
                            (filter (fun c' => cr_year c' =? cr_year c) rows))))
      rows.

(** [transform_calculate(proportion='datum.count / datum.total')]. *)
Definition transform_calculate (rows : list (CountRow * Z)) : list ShareRow :=
  map (fun ct => mkShareRow (cr_year (fst ct)) (cr_key (fst ct))
                   (cr_count (fst ct)) (snd ct)
                   (ratio (cr_count (fst ct)) (snd ct)))
      rows.

Definition proportion_by_year (fd : DataFrame) : list ShareRow :=
  transform_calculate (transform_joinaggregate (transform_aggregate fd)).
End Shares.

(** main.py lines 63-70 and 161-168. *)
Definition genre_chart (fd : DataFrame) : list ShareRow :=
  proportion_by_year genre_full fd.
Definition gender_prop (fd : DataFrame) : list ShareRow :=
  proportion_by_year gender fd.

(** The proportions of the records of one year. *)
Definition proportions_of_year (y : Z) (rows : list ShareRow) : list spec_float :=
  map sh_proportion (filter (fun s => sh_year s =? y) rows).

(** ** Overview metrics (tab 1) *)

(** [filtered_data.shape[0]]. *)
Definition total_songs (fd : DataFrame) : Z := count_rows fd.

(** [filtered_data['weeks_on_chart'].mean()]: the sum over the count in
    binary64; NaN on an empty column. *)
Definition avg_weeks (fd : DataFrame) : spec_float :=
  ratio (Zsum (map weeks_on_chart fd)) (count_rows fd).

Definition string_of_nonneg (z : Z) : string :=
  NilZero.string_of_uint (N.to_uint (Z.to_N z)).

(** The integer nearest to [num / den], ties to even. *)
Definition round_half_even (num den : Z) : Z :=
  let q := num / den in
  match 2 * (num mod den) ?= den with
  | Lt => q
  | Eq => if Z.even q then q else q + 1
  | Gt => q + 1
  end.

(** The number of tenths that [format(x, '.1f')] prints for the
    magnitude [m * 2 ^ e]. *)
Definition tenths (m : positive) (e : Z) : Z :=
  match e with
  | Zneg p => round_half_even (10 * Zpos m) (2 ^ Zpos p)
  | _ => 10 * Zpos m * 2 ^ e
  end.

(** Python's [f"{x:.1f}"]. *)
Definition format_1f (x : spec_float) : string :=
  match x with
  | S754_nan => "nan"
  | S754_infinity s => if s then "-inf" else "inf"
  | S754_zero s => if s then "-0.0" else "0.0"
  | S754_finite s m e =>
      let t := tenths m e in
      (if s then "-" else "")
        ++ string_of_nonneg (t / 10) ++ "." ++ string_of_nonneg (t mod 10)
  end.

(** The text of the second metric, main.py line 58. *)
Definition avg_weeks_metric (fd : DataFrame) : string :=
  format_1f (avg_weeks fd) ++ " weeks".

(** ** Custom analysis chart (tab 4) *)

(** The column labels of the frame read from the file. *)
Definition columns : list string :=
  ["year"; "genre_full"; "weeks_on_chart"; "mood_happy"; "gender";
   "peak_position"; "bpm"; "loudness"; "song"; "artist"].

Definition is_lower (c : ascii) : bool :=
  (97 <=? nat_of_ascii c)%nat && (nat_of_ascii c <=? 122)%nat.
Definition is_upper (c : ascii) : bool :=
  (65 <=? nat_of_ascii c)%nat && (nat_of_ascii c <=? 90)%nat.
Definition to_upper (c : ascii) : ascii :=
  if is_lower c then ascii_of_nat (nat_of_ascii c - 32) else c.
Definition to_lower (c : ascii) : ascii :=
  if is_upper c then ascii_of_nat (nat_of_ascii c + 32) else c.

(** [s.replace('_', ' ')]. *)
Fixpoint replace_underscore (s : string) : string :=
  match s with
  | EmptyString => EmptyString
  | String c t =>
      String (if Ascii.eqb c "_" then " "%char else c) (replace_underscore t)
  end.

(** [s.title()] on ASCII text: a letter is upper-cased after a
    character that is not a letter and lower-cased after a letter. *)
Fixpoint title_from (previous_is_cased : bool) (s : string) : string :=
  match s with
  | EmptyString => EmptyString
  | String c t =>
      let cased := is_lower c || is_upper c in
      String (if cased then (if previous_is_cased then to_lower c else to_upper c) else c)
             (title_from cased t)
  end.

Definition title (s : string) : string := title_from false s.

(** A positional channel: its shorthand and its title. *)
Record Channel := mkChannel {
  ch_shorthand : string;
  ch_title : string
}.

(** The chart object built by main.py lines 206-227. *)
Record ChartSpec := mkChartSpec {
  cs_data : DataFrame;
  cs_width : Z;
  cs_height : Z;
  cs_mark : string;
  cs_mark_size : Z;
  cs_x : Channel;
  cs_y : Channel;
  cs_color : string;
  cs_tooltip : list string;
  cs_interactive : bool;
  cs_facet_column : option string
}.

(** What evaluating a Python expression yields: a value or an exception. *)
Inductive outcome (A : Type) : Type :=
| Returned (a : A)
| Raised (exception : string).
Arguments Returned {A} a.
Arguments Raised {A} exception.

(** main.py lines 206-227: the chart object is assembled from the
    chosen field names; the names are resolved later, when the
    specification is produced ([to_dict] below). *)
Definition chart (fd : DataFrame) (x_axis y_axis hue_var : string)
    (filter_year : bool) : outcome ChartSpec :=
  Returned
    {| cs_data := fd;
       cs_width := if filter_year then 350 else 700;
       cs_height := if filter_year then 250 else 400;
       cs_mark := "circle";
       cs_mark_size := 40;
       cs_x := mkChannel x_axis (title (replace_underscore x_axis));
       cs_y := mkChannel y_axis (title (replace_underscore y_axis));
       cs_color := hue_var ++ ":N";
       cs_tooltip := [x_axis; y_axis; "song"; "artist"; "genre_full"; "year"];
       cs_interactive := true;
       cs_facet_column := if filter_year then Some "year:N" else None |}.



(** ** The pipeline *)

(** The selection state handed to the pipeline. *)
Record Selection := mkSelection {
  sel_years : list Z;
  sel_genres : list string;
  sel_min_weeks : Z
}.

Inductive MoodView := YearComparison | GenreBreakdown.

Inductive MoodTable :=
| YearStats (t : list (Z * spec_float))
| GenreStats (t : list ((string * Z) * spec_float)).

(** main.py lines 97-126. *)
Definition mood_table (mood_view : MoodView) (fd : DataFrame) : MoodTable :=
  match mood_view with
  | YearComparison => YearStats (year_stats fd)
  | GenreBreakdown => GenreStats (genre_stats fd)
  end.

(** The tables and metrics handed to the renderer in one run. *)
Record Summary := mkSummary {
  sm_filtered : DataFrame;
  sm_total_songs : Z;
  sm_avg_weeks : string;
  sm_genre_chart : list ShareRow;
  sm_mood : MoodTable;
  sm_gender_prop : list ShareRow
}.

(** Filter followed by the aggregations, main.py lines 35-179. *)
Definition pipeline (merged_data : DataFrame) (sel : Selection)
    (mood_view : MoodView) : Summary :=
  let fd := filtered_data merged_data (sel_years sel) (sel_genres sel)
              (sel_min_weeks sel) in
  {| sm_filtered := fd;
     sm_total_songs := total_songs fd;
     sm_avg_weeks := avg_weeks_metric fd;
     sm_genre_chart := genre_chart fd;
     sm_mood := mood_table mood_view fd;
     sm_gender_prop := gender_prop fd |}.

(** ** Example data *)

(** The example dataset of the specification. *)
Definition example_row (y : Z) (g : string) (w : Z) : Row :=
  mkRow y g w (Some "happy") "male" 1 120 (-8) "song" "artist".

Definition example_data : DataFrame :=
  [example_row 1969 "Rock" 10; example_row 1969 "Pop" 5;
   example_row 2019 "Rock" 20; example_row 2019 "Pop" 15].

(** ** Widget defaults and bounds *)

(** The front-end state of a multiselect whose [default] is the whole
    option list, main.py lines 18 and 24: every position is chosen. *)
Definition default_picks {A : Type} (options : list A) : list nat :=
  seq 0 (List.length options).

(** [int(merged_data['weeks_on_chart'].max())], main.py line 30: the
    maximum of an empty column is NaN, which [int] refuses. *)
Definition max_weeks (merged_data : DataFrame) : outcome Z :=
  match map weeks_on_chart merged_data with
  | [] => Raised "ValueError"
  | w :: ws => Returned (fold_left Z.max ws w)
  end.

(** ** Counting the happy cells *)

(** Equality of two cells of the [mood_happy] column is decidable. *)
Definition mood_eq_dec : forall a b : option string, {a = b} + {a <> b}.
Proof. decide equality. apply string_dec. Defined.

(** ** Producing the chart specification (main.py line 229) *)

(** The Vega-Lite type of an encoded field. *)
Inductive FieldType := Quantitative | Nominal | Ordinal | Temporal | Geojson.

(** The columns of the frame a chart is built on, each with the type
    Altair infers from the dtype of the column. *)
Definition Schema := list (string * FieldType).

(** The schema of a frame read from a file that has the ten columns. *)
Definition merged_schema : Schema :=
  [("year", Quantitative); ("genre_full", Nominal);
   ("weeks_on_chart", Quantitative); ("mood_happy", Nominal);
   ("gender", Nominal); ("peak_position", Quantitative);
   ("bpm", Quantitative); ("loudness", Quantitative);
   ("song", Nominal); ("artist", Nominal)].

Definition lookup_type (schema : Schema) (field : string) : option FieldType :=
  match find (fun c => String.eqb (fst c) field) schema with
  | Some c => Some (snd c)
  | None => None
  end.

(** The type codes of the encoding shorthand. *)
Definition type_of_code (code : string) : option FieldType :=
  if String.eqb code "Q" || String.eqb code "quantitative" then Some Quantitative
  else if String.eqb code "N" || String.eqb code "nominal" then Some Nominal
  else if String.eqb code "O" || String.eqb code "ordinal" then Some Ordinal
  else if String.eqb code "T" || String.eqb code "temporal" then Some Temporal
  else if String.eqb code "G" || String.eqb code "geojson" then Some Geojson
  else None.

(** The text before and after the last colon of a shorthand. *)
Fixpoint split_last_colon (s : string) : option (string * string) :=
  match s with
  | EmptyString => None
  | String c t =>
      match split_last_colon t with
      | Some (p, q) => Some (String c p, q)
      | None => if Ascii.eqb c ":" then Some (EmptyString, t) else None
      end
  end.

(** A field of the produced specification. *)
Record FieldDef := mkFieldDef {
  fd_field : string;
  fd_type : FieldType
}.

(** Altair resolves a shorthand when the specification is produced: a
    shorthand that ends in a type code is taken as it is; one without a
    type code must name a column of the frame, whose type is inferred,
    and raises [ValueError] when no column has that name.  (The script
    builds no shorthand with an aggregate or a time unit.) *)
Definition parse_shorthand (schema : Schema) (shorthand : string) : outcome FieldDef :=
  let untyped :=
    match lookup_type schema shorthand with
    | Some t => Returned (mkFieldDef shorthand t)
    | None => Raised "ValueError"
    end in
  match split_last_colon shorthand with
  | Some (field, code) =>
      match type_of_code code with
      | Some t => Returned (mkFieldDef field t)
      | None => untyped
      end
  | None => untyped
  end.

(** Sequencing of evaluations that may raise. *)
Definition bind {A B : Type} (o : outcome A) (f : A -> outcome B) : outcome B :=
  match o with
  | Returned a => f a
  | Raised e => Raised e
  end.

Fixpoint parse_all (schema : Schema) (shorthands : list string) : outcome (list FieldDef) :=
  match shorthands with
  | [] => Returned []
  | s :: t =>
      bind (parse_shorthand schema s) (fun f =>
      bind (parse_all schema t) (fun fs => Returned (f :: fs)))
  end.

(** The specification handed to the browser. *)
Record VegaLiteSpec := mkVegaLiteSpec {
  vl_data : DataFrame;
  vl_width : Z;
  vl_height : Z;
  vl_mark : string;
  vl_mark_size : Z;
  vl_x : FieldDef;
  vl_x_title : string;
  vl_y : FieldDef;
  vl_y_title : string;
  vl_color : FieldDef;
  vl_tooltip : list FieldDef;
  vl_interactive : bool;
  vl_facet_column : option FieldDef
}.

(** [chart.to_dict()], called by [st.altair_chart]: every shorthand of
    the chart is resolved against the frame of the chart. *)
Definition to_dict (schema : Schema) (c : ChartSpec) : outcome VegaLiteSpec :=
  bind (parse_shorthand schema (ch_shorthand (cs_x c))) (fun x =>
  bind (parse_shorthand schema (ch_shorthand (cs_y c))) (fun y =>
  bind (parse_shorthand schema (cs_color c)) (fun color =>
  bind (parse_all schema (cs_tooltip c)) (fun tooltip =>
  bind (match cs_facet_column c with
        | Some s => bind (parse_shorthand schema s) (fun f => Returned (Some f))
        | None => Returned None
        end) (fun facet =>
  Returned
    {| vl_data := cs_data c;
       vl_width := cs_width c;
       vl_height := cs_height c;
       vl_mark := cs_mark c;
       vl_mark_size := cs_mark_size c;
       vl_x := x;
       vl_x_title := ch_title (cs_x c);
       vl_y := y;
       vl_y_title := ch_title (cs_y c);
       vl_color := color;
       vl_tooltip := tooltip;
       vl_interactive := cs_interactive c;
       vl_facet_column := facet |}))))).

(** main.py lines 206-229: the chart is built and its specification is
    produced for a filtered table whose frame has the columns [schema]. *)
Definition chart_spec (schema : Schema) (fd : DataFrame)
    (x_axis y_axis hue_var : string) (filter_year : bool) : outcome VegaLiteSpec :=
  bind (chart fd x_axis y_axis hue_var filter_year) (to_dict schema).



(** * Proofs *)

#[local] Hint Constructors subseq : core.

(** ** binary64 division of two counts *)

Lemma digits2_pos_size p : digits2_pos p = Pos.size p.
Proof. induction p; simpl; congruence. Qed.

Lemma Zdigits2_log2 p : Zdigits2 (Zpos p) = Z.log2 (Zpos p) + 1.
Proof.
  simpl. rewrite digits2_pos_size. destruct p; simpl; lia.
Qed.

Lemma Zdigits2_bounds p d :
  0 < d -> 2 ^ (d - 1) <= Zpos p < 2 ^ d -> Zdigits2 (Zpos p) = d.
Proof.
  intros Hd H. rewrite Zdigits2_log2.
  assert (E : Z.log2 (Zpos p) = d - 1).
  { apply Z.log2_unique; [lia|].
    replace (Z.succ (d - 1)) with d by lia. exact H. }
  lia.
Qed.

Lemma fexp_53 e : -1074 <= e -> fexp 53 1024 (53 + e) = e.
Proof. unfold fexp, emin. lia. Qed.

Lemma fexp_54 e : -1075 <= e -> fexp 53 1024 (54 + e) = e + 1.
Proof. unfold fexp, emin. lia. Qed.

Lemma loc_of_shr_record_of_loc m l :
  loc_of_shr_record (shr_record_of_loc m l) = l.
Proof. destruct l as [|[]]; reflexivity. Qed.

Lemma shr_m_of_loc m l : shr_m (shr_record_of_loc m l) = m.
Proof. destruct l as [|[]]; reflexivity. Qed.

(** No shift for a 53-digit mantissa. *)
Lemma shr_fexp_53 p e l :
  2 ^ 52 <= Zpos p < 2 ^ 53 -> -1074 <= e ->
  shr_fexp 53 1024 (Zpos p) e l = (shr_record_of_loc (Zpos p) l, e).
Proof.
  intros Hp He. unfold shr_fexp.
  rewrite (Zdigits2_bounds p 53) by (simpl; lia).
  rewrite fexp_53 by lia. now rewrite Z.sub_diag.
Qed.

Lemma shr_fexp_54 p e l :
  2 ^ 53 <= Zpos p < 2 ^ 54 -> -1075 <= e ->
  shr_fexp 53 1024 (Zpos p) e l = (shr_1 (shr_record_of_loc (Zpos p) l), e + 1).
Proof.
  intros Hp He. unfold shr_fexp.
  rewrite (Zdigits2_bounds p 54) by (simpl; lia).
  rewrite fexp_54 by lia.
  replace (e + 1 - e) with 1 by lia. reflexivity.
Qed.

Lemma new_location_inbetween D q r :
  0 < D -> 0 <= r < D -> inbetween (q * D + r) D q (new_location D r).
Proof.
  intros HD Hr. unfold new_location, new_location_even, new_location_odd.
  destruct (Z.even D) eqn:Ev.
  - destruct (Z.eqb_spec r 0) as [->|Hn]; unfold inbetween; [lia|].
    split; [lia|].
    destruct (Z.compare_spec (2 * r) D);
      [apply Z.compare_eq_iff | apply Z.compare_lt_iff | apply Z.compare_gt_iff]; lia.
  - destruct (Z.eqb_spec r 0) as [->|Hn]; unfold inbetween; [lia|].
    split; [lia|].
    assert (Hodd : 2 * r <> D).
    { intros E. rewrite <- E in Ev. rewrite Z.even_mul in Ev. discriminate. }
    destruct (Z.compare_spec (2 * r + 1) D);
      [apply Z.compare_lt_iff | apply Z.compare_lt_iff | apply Z.compare_gt_iff]; lia.
Qed.

Lemma round_nearest_even_error N D q l :
  0 < D -> inbetween N D q l ->
  2 * Z.abs (round_nearest_even q l * D - N) <= D.
Proof.
  intros HD H. destruct l as [|c]; unfold inbetween, round_nearest_even in *.
  - subst. replace (q * D - q * D) with 0 by lia. simpl. lia.
  - destruct H as [Hb Hc]. destruct c.
    + apply Z.compare_eq_iff in Hc. destruct (Z.even q); lia.
    + change (2 * N < (2 * q + 1) * D) in Hc. lia.
    + apply Z.compare_gt_iff in Hc. lia.
Qed.

Ltac compare_goal :=
  match goal with
  | |- (_ ?= _) = Eq => apply Z.compare_eq_iff
  | |- (_ ?= _) = Lt => apply Z.compare_lt_iff
  | |- (_ ?= _) = Gt => apply Z.compare_gt_iff
  end.

Ltac compare_hyp H :=
  match type of H with
  | (_ ?= _) = Eq => apply Z.compare_eq_iff in H
  | (?a ?= ?b) = Lt => change (a < b) in H
  | (_ ?= _) = Gt => apply Z.compare_gt_iff in H
  end.

Ltac split_inbetween H :=
  match type of H with
  | _ /\ _ => let Hc := fresh "Hc" in destruct H as [? Hc]; compare_hyp Hc
  | _ => idtac
  end.

(** One step of right shift keeps the location in step with the
    doubled denominator. *)
Lemma shr_1_inbetween N D p l :
  0 < D -> inbetween N D (Zpos p) l ->
  let mrs := shr_1 (shr_record_of_loc (Zpos p) l) in
  inbetween N (2 * D) (shr_m mrs) (loc_of_shr_record mrs)
  /\ (Zpos p = 2 * shr_m mrs \/ Zpos p = 2 * shr_m mrs + 1).
Proof.
  intros HD H.
  assert (EI := Pos2Z.inj_xI). assert (EO := Pos2Z.inj_xO).
  destruct p as [p|p|]; destruct l as [|[]]; unfold inbetween in *;
    cbn [shr_1 shr_record_of_loc loc_of_shr_record shr_m orb];
    [ specialize (EI p) | specialize (EI p) | specialize (EI p) | specialize (EI p)
    | specialize (EO p) | specialize (EO p) | specialize (EO p) | specialize (EO p)
    | | | | ];
    split_inbetween H;
    repeat split; try compare_goal; try lia.
Qed.

(** The last step of [binary_round_aux]: renormalising the rounded
    mantissa, which has 53 digits or is [2 ^ 53]. *)
Lemma round_tail (s : bool) mr e :
  2 ^ 52 <= mr <= 2 ^ 53 -> -1074 <= e <= 970 ->
  exists m e',
    (let '(mrs, e'') := shr_fexp 53 1024 mr e loc_Exact in
     match shr_m mrs with
     | Z0 => S754_zero s
     | Zpos m => if e'' <=? 1024 - 53 then S754_finite s m e'' else S754_infinity s
     | _ => S754_nan
     end) = S754_finite s m e'
    /\ 2 ^ 52 <= Zpos m < 2 ^ 53
    /\ ((e' = e /\ Zpos m = mr) \/ (e' = e + 1 /\ 2 * Zpos m = mr)).
Proof.
  intros Hm He.
  destruct (Z_lt_ge_dec mr (2 ^ 53)) as [Hlt|Hge].
  - assert (exists q, mr = Zpos q) as [q Hq].
    { destruct mr; try lia. eauto. }
    rewrite Hq in *. rewrite shr_fexp_53 by lia. simpl shr_m.
    replace (e <=? 1024 - 53) with true by (symmetry; apply Z.leb_le; lia).
    exists q, e. repeat split; lia.
  - assert (Hq : mr = Zpos (2 ^ 53)%positive).
    { change (Zpos (2 ^ 53)%positive) with (2 ^ 53). lia. }
    rewrite Hq. rewrite shr_fexp_54 by (simpl; lia). simpl shr_m.
    replace (e + 1 <=? 1024 - 53) with true by (symmetry; apply Z.leb_le; lia).
    exists (2 ^ 52)%positive, (e + 1).
    repeat split; simpl; lia.
Qed.

Lemma round_nearest_even_range q l :
  round_nearest_even q l = q \/ round_nearest_even q l = q + 1.
Proof.
  destruct l as [|[]]; unfold round_nearest_even; auto.
  destruct (Z.even q); auto.
Qed.

(** [binary_round_aux] on a quotient of 53 or 54 digits: the result is a
    normal number [m * 2 ^ e'], with [e' - e] between 0 and 2, that is
    within half a unit in the last place of [N / D]. *)
Lemma binary_round_aux_quotient s p e l N D :
  0 < D -> inbetween N D (Zpos p) l ->
  2 ^ 52 <= Zpos p < 2 ^ 54 -> -1074 <= e <= 968 ->
  exists m e' c,
    binary_round_aux 53 1024 s (Zpos p) e l = S754_finite s m e'
    /\ 2 ^ 52 <= Zpos m < 2 ^ 53
    /\ ((c = 1 /\ e' = e) \/ (c = 2 /\ e' = e + 1) \/ (c = 4 /\ e' = e + 2))
    /\ (Zpos p < 2 ^ 53 -> 2 * Z.abs (Zpos m * c * D - N) <= D)
    /\ (2 ^ 53 <= Zpos p -> Z.abs (Zpos m * c * D - N) <= D).
Proof.
  intros HD Hin Hp He. unfold binary_round_aux.
  destruct (Z_lt_ge_dec (Zpos p) (2 ^ 53)) as [Hlt|Hge].
  - rewrite shr_fexp_53 by lia.
    rewrite loc_of_shr_record_of_loc, shr_m_of_loc.
    pose proof (round_nearest_even_error N D _ l HD Hin) as Herr.
    pose proof (round_nearest_even_range (Zpos p) l) as Hr.
    set (mr := round_nearest_even (Zpos p) l) in *.
    destruct (round_tail s mr e) as (m & e' & -> & Hm & Hc); try lia.
    destruct Hc as [[-> Hc]|[-> Hc]].
    + exists m, e, 1. repeat split; try lia.
    + exists m, (e + 1), 2. repeat split; try lia.
  - rewrite shr_fexp_54 by lia.
    destruct (shr_1_inbetween N D p l HD Hin) as [Hin2 Hq].
    set (mrs := shr_1 (shr_record_of_loc (Zpos p) l)) in *.
    assert (H2D : 0 < 2 * D) by lia.
    pose proof (round_nearest_even_error N (2 * D) _ _ H2D Hin2) as Herr.
    pose proof (round_nearest_even_range (shr_m mrs) (loc_of_shr_record mrs)) as Hr.
    set (mr := round_nearest_even (shr_m mrs) (loc_of_shr_record mrs)) in *.
    destruct (round_tail s mr (e + 1)) as (m & e' & -> & Hm & Hc); try lia.
    destruct Hc as [[-> Hc]|[-> Hc]].
    + exists m, (e + 1), 2. repeat split; try lia.
    + exists m, (e + 1 + 1), 4. repeat split; try lia.
Qed.

Lemma div_eucl_div_mod a b : Z.div_eucl a b = (a / b, a mod b).
Proof. unfold Z.div, Z.modulo. now destruct (Z.div_eucl a b). Qed.

Lemma SFdiv_core_binary_normal m1 e1 m2 e2 :
  2 ^ 52 <= Zpos m1 < 2 ^ 53 -> 2 ^ 52 <= Zpos m2 < 2 ^ 53 ->
  -1021 <= e1 - e2 ->
  SFdiv_core_binary 53 1024 (Zpos m1) e1 (Zpos m2) e2
  = ((Zpos m1 * 2 ^ 53) / Zpos m2, e1 - e2 - 53,
     new_location (Zpos m2) ((Zpos m1 * 2 ^ 53) mod Zpos m2)).
Proof.
  intros H1 H2 He. unfold SFdiv_core_binary.
  rewrite (Zdigits2_bounds m1 53), (Zdigits2_bounds m2 53) by (simpl; lia).
  replace (53 + e1 - (53 + e2)) with (e1 - e2) by lia.
  assert (E : Z.min (fexp 53 1024 (e1 - e2)) (e1 - e2) = e1 - e2 - 53).
  { unfold fexp, emin. lia. }
  rewrite E.
  replace (e1 - e2 - (e1 - e2 - 53)) with 53 by lia.
  rewrite Z.shiftl_mul_pow2 by lia.
  now rewrite div_eucl_div_mod.
Qed.

(** Division of two normal numbers with 53-digit mantissas. *)
Lemma SFdiv_normal m1 e1 m2 e2 :
  2 ^ 52 <= Zpos m1 < 2 ^ 53 -> 2 ^ 52 <= Zpos m2 < 2 ^ 53 ->
  -52 <= e1 <= 0 -> -52 <= e2 <= 0 ->
  exists m e c,
    SFdiv 53 1024 (S754_finite false m1 e1) (S754_finite false m2 e2)
    = S754_finite false m e
    /\ 2 ^ 52 <= Zpos m < 2 ^ 53
    /\ ((c = 1 /\ e = e1 - e2 - 53) \/ (c = 2 /\ e = e1 - e2 - 52)
        \/ (c = 4 /\ e = e1 - e2 - 51))
    /\ Z.abs (Zpos m * c * Zpos m2 - Zpos m1 * 2 ^ 53) <= Zpos m1.
Proof.
  intros H1 H2 He1 He2. unfold SFdiv.
  rewrite SFdiv_core_binary_normal by lia.
  set (N := Zpos m1 * 2 ^ 53). set (D := Zpos m2).
  assert (HD : 0 < D) by (unfold D; lia).
  assert (HN : N = (N / D) * D + N mod D).
  { rewrite (Z.div_mod N D) at 1 by lia. lia. }
  assert (Hr : 0 <= N mod D < D) by (apply Z.mod_pos_bound; lia).
  pose proof (new_location_inbetween D (N / D) (N mod D) HD Hr) as Hin.
  rewrite <- HN in Hin.
  assert (Hq : 2 ^ 52 <= N / D < 2 ^ 54).
  { split.
    - apply Z.div_le_lower_bound; [lia|]. unfold N, D. lia.
    - apply Z.div_lt_upper_bound; [lia|]. unfold N, D. lia. }
  assert (exists q, N / D = Zpos q) as [q Eq].
  { destruct (N / D); try lia. eauto. }
  rewrite Eq in *.
  destruct (binary_round_aux_quotient (xorb false false) q (e1 - e2 - 53)
              _ N D HD Hin Hq) as (m & e & c & -> & Hm & Hc & Ha & Hb); [lia|].
  exists m, e, c. simpl xorb. repeat split; try lia.
  destruct (Z_lt_ge_dec (Zpos q) (2 ^ 53)) as [Hlt|Hge].
  - specialize (Ha Hlt).
    assert (D <= 2 * Zpos m1).
    { assert (2 ^ 52 * D <= Zpos q * D) by (apply Z.mul_le_mono_nonneg_r; lia).
      assert (EN : N = Zpos m1 * 2 ^ 53) by reflexivity. lia. }
    assert (EN : N = Zpos m1 * 2 ^ 53) by reflexivity. lia.
  - assert (Hge' : 2 ^ 53 <= Zpos q) by lia. specialize (Hb Hge').
    assert (D <= Zpos m1).
    { assert (2 ^ 53 * D <= Zpos q * D) by (apply Z.mul_le_mono_nonneg_r; lia).
      assert (EN : N = Zpos m1 * 2 ^ 53) by reflexivity. lia. }
    assert (EN : N = Zpos m1 * 2 ^ 53) by reflexivity. lia.
Qed.

Lemma iter_xO_pow p j : Zpos (Pos.iter xO p j) = Zpos p * 2 ^ Zpos j.
Proof.
  induction j using Pos.peano_ind.
  - simpl. lia.
  - rewrite Pos.iter_succ, Pos2Z.inj_xO, IHj, Pos2Z.inj_succ, Z.pow_succ_r; lia.
Qed.

(** An integer below [2 ^ 53] converts exactly, to a 53-digit mantissa. *)
Lemma Z2SF_pos p :
  Zpos p < 2 ^ 53 ->
  exists m,
    Z2SF (Zpos p) = S754_finite false m (Z.log2 (Zpos p) - 52)
    /\ 2 ^ 52 <= Zpos m < 2 ^ 53
    /\ Zpos m = Zpos p * 2 ^ (52 - Z.log2 (Zpos p)).
Proof.
  intros Hp. unfold Z2SF, binary_normalize, binary_round.
  pose proof (Z.log2_nonneg (Zpos p)) as H0.
  assert (Hlog : Z.log2 (Zpos p) < 53).
  { apply Z.log2_lt_pow2; lia. }
  destruct (Z.log2_spec (Zpos p)) as [Hlo Hhi]; [lia|].
  set (d := Z.log2 (Zpos p)) in *.
  change (Zpos (digits2_pos p)) with (Zdigits2 (Zpos p)).
  rewrite Zdigits2_log2. fold d.
  assert (E : fexp 53 1024 (d + 1 + 0) = d - 52) by (unfold fexp, emin; lia).
  rewrite E.
  assert (exists mz, shl_align p 0 (d - 52) = (mz, d - 52)
                     /\ Zpos mz = Zpos p * 2 ^ (52 - d)) as (mz & -> & Hmz).
  { unfold shl_align. rewrite Z.sub_0_r.
    destruct (d - 52) as [|j|j] eqn:Ed; try lia.
    - exists p. replace (52 - d) with 0 by lia. split; [reflexivity|lia].
    - exists (Pos.iter xO p j). split; [reflexivity|].
      rewrite iter_xO_pow. replace (52 - d) with (Zpos j) by lia. reflexivity. }
  assert (Hb : 2 ^ 52 <= Zpos mz < 2 ^ 53).
  { rewrite Hmz. split.
    - replace 52 with (d + (52 - d)) at 1 by lia.
      rewrite Z.pow_add_r by lia. apply Z.mul_le_mono_nonneg_r; lia.
    - replace 53 with (Z.succ d + (52 - d)) by lia.
      rewrite Z.pow_add_r by lia. apply Z.mul_lt_mono_pos_r; lia. }
  assert (Hin : inbetween (Zpos mz * 1) 1 (Zpos mz) loc_Exact) by reflexivity.
  destruct (binary_round_aux_quotient false mz (d - 52) loc_Exact _ 1 ltac:(lia) Hin)
    as (m & e & c & -> & Hm & Hc & Ha & _); try lia.
  specialize (Ha ltac:(lia)).
  assert (c = 1 /\ m = mz /\ e = d - 52) as (-> & -> & ->) by lia.
  exists mz. repeat split; try lia.
Qed.

Lemma abs_scale P a b d :
  0 < P -> Z.abs (a * P - b * P) <= d * P -> Z.abs (a - b) <= d.
Proof.
  intros HP H. replace (a * P - b * P) with ((a - b) * P) in H by ring.
  rewrite Z.abs_mul, (Z.abs_eq P) in H by lia.
  now apply Z.mul_le_mono_pos_r in H.
Qed.

Lemma ratio_spec k n :
  0 < k <= n -> n < 2 ^ 53 ->
  exists m e,
    ratio k n = S754_finite false m e
    /\ 2 ^ 52 <= Zpos m < 2 ^ 53
    /\ -105 <= e <= -52
    /\ (e = -52 -> Zpos m = 2 ^ 52)
    /\ 2 ^ 53 * Z.abs (Zpos m * n - k * 2 ^ (- e)) <= k * 2 ^ (- e).
Proof.
  intros Hk Hn.
  destruct k as [|pk|pk]; try lia. destruct n as [|pn|pn]; try lia.
  destruct (Z2SF_pos pk) as (m1 & E1 & B1 & V1); [lia|].
  destruct (Z2SF_pos pn) as (m2 & E2 & B2 & V2); [lia|].
  assert (Hmono : Z.log2 (Zpos pk) <= Z.log2 (Zpos pn)) by (apply Z.log2_le_mono; lia).
  pose proof (Z.log2_nonneg (Zpos pk)) as Hk0.
  assert (Hn52 : Z.log2 (Zpos pn) < 53) by (apply Z.log2_lt_pow2; lia).
  set (dk := Z.log2 (Zpos pk)) in *. set (dn := Z.log2 (Zpos pn)) in *.
  unfold ratio, float_div. rewrite E1, E2.
  destruct (SFdiv_normal m1 (dk - 52) m2 (dn - 52)) as (m & e & c & -> & Hm & Hc & Hb);
    try lia.
  exists m, e.
  set (k := Zpos pk) in *. set (n := Zpos pn) in *.
  set (g := dn - dk). set (P2 := 2 ^ (52 - dn)) in *.
  assert (HP2 : 0 < P2) by (apply Z.pow_pos_nonneg; lia).
  assert (HG : 0 < 2 ^ g) by (apply Z.pow_pos_nonneg; lia).
  assert (EP1 : 2 ^ (52 - dk) = P2 * 2 ^ g).
  { unfold P2, g. rewrite <- Z.pow_add_r by lia. f_equal. lia. }
  rewrite EP1 in V1.
  rewrite V1, V2 in Hb.
  assert (Hb' : Z.abs (c * (Zpos m * n) - 2 ^ 53 * (k * 2 ^ g)) <= k * 2 ^ g).
  { apply (abs_scale P2); [assumption|].
    match goal with |- Z.abs ?x <= ?y =>
      replace x with (Zpos m * c * (n * P2) - k * (P2 * 2 ^ g) * 2 ^ 53) by ring;
      replace y with (k * (P2 * 2 ^ g)) by ring end.
    exact Hb. }
  clear Hb. set (u := Zpos m * n) in *. set (G := 2 ^ g) in *.
  assert (Hg0 : g = 0 -> G = 1) by (intros E; unfold G; now rewrite E).
  assert (Hg1 : 0 < g -> exists G', G = 2 * G' /\ G' = 2 ^ (g - 1)).
  { intros Hg. exists (2 ^ (g - 1)). split; [|reflexivity].
    unfold G. replace g with (Z.succ (g - 1)) at 1 by lia.
    rewrite Z.pow_succ_r by lia. reflexivity. }
  assert (Hmn : forall a, u * a <= n * (2 ^ 53 + 1) -> Zpos m * a <= 2 ^ 53 + 1).
  { intros a Ha. apply (Z.mul_le_mono_pos_r _ _ n); [lia|]. unfold u in Ha. lia. }
  assert (Hg : 0 <= g) by (unfold g; lia).
  destruct Hc as [[-> ->]|[[-> ->]|[-> ->]]].
  - replace (- (dk - 52 - (dn - 52) - 53)) with (g + 53) by (unfold g; lia).
    rewrite Z.pow_add_r by lia. fold G.
    repeat split; try (unfold g in *; lia).
  - replace (- (dk - 52 - (dn - 52) - 52)) with (g + 52) by (unfold g; lia).
    rewrite Z.pow_add_r by lia. fold G.
    repeat split; try (unfold g in *; lia).
    intros E. assert (g = 0) by (unfold g; lia).
    specialize (Hg0 H). specialize (Hmn 2). lia.
  - assert (0 < g).
    { destruct (Z.eq_dec g 0) as [E|]; [|lia].
      specialize (Hg0 E). specialize (Hmn 4). lia. }
    destruct (Hg1 H) as (G' & EG & EG').
    replace (- (dk - 52 - (dn - 52) - 51)) with ((g - 1) + 52) by (unfold g; lia).
    rewrite Z.pow_add_r by lia. rewrite <- EG'.
    assert (0 < G') by (rewrite EG'; apply Z.pow_pos_nonneg; lia).
    repeat split; try (unfold g in *; lia).
    intros E. assert (g = 1) by (unfold g; lia).
    assert (G' = 1) by (rewrite EG', H1; reflexivity).
    specialize (Hmn 2). lia.
Qed.

(** A zero count over a positive count is [+0.0]. *)
Lemma ratio_zero n : 0 < n < 2 ^ 53 -> ratio 0 n = S754_zero false.
Proof.
  intros Hn. destruct n as [|p|p]; try lia.
  destruct (Z2SF_pos p) as (m & E & _); [lia|].
  unfold ratio, float_div. rewrite E. reflexivity.
Qed.

(** The quotient of a count by a larger count lies between 0.0 and 1.0
    for the binary64 comparison. *)
Lemma ratio_range k n :
  0 <= k <= n -> 0 < n < 2 ^ 53 ->
  SFleb float_zero (ratio k n) = true /\ SFleb (ratio k n) float_one = true.
Proof.
  intros Hk Hn. destruct (Z.eq_dec k 0) as [->|Hk0].
  - rewrite ratio_zero by lia. split; reflexivity.
  - destruct (ratio_spec k n) as (m & e & -> & Hm & He & H52 & _); try lia.
    split; [reflexivity|].
    unfold SFleb, float_one. change (SFone 53 1024)
      with (S754_finite false 4503599627370496 (-52)).
    unfold SFcompare.
    destruct (Z.compare_spec e (-52)) as [E|E|E].
    + specialize (H52 E). change (2 ^ 52) with (Zpos 4503599627370496) in H52.
      injection H52 as ->. reflexivity.
    + reflexivity.
    + lia.
Qed.

(** The binary64 quotient is within a relative error of [2 ^ -53] of the
    exact quotient. *)
Lemma ratio_error k n :
  0 < k <= n -> n < 2 ^ 53 ->
  (Qabs (SF2Q (ratio k n) - (k # Z.to_pos n))
   <= (k # Z.to_pos n) * (1 # 2 ^ 53))%Q.
Proof.
  intros Hk Hn.
  destruct (ratio_spec k n) as (m & e & -> & Hm & He & _ & Hb); try lia.
  destruct e as [|p|p]; try lia. cbn [SF2Q].
  change (- Zneg p) with (Zpos p) in Hb.
  destruct n as [|pn|pn]; try lia. cbn [Z.to_pos].
  set (X := 2 ^ Zpos p) in *.
  assert (HX : Zpos (2 ^ p) = X) by (unfold X; apply Pos2Z.inj_pow).
  assert (HX0 : 0 < X) by (rewrite <- HX; lia).
  apply Qabs_Qle_condition.
  unfold Qle, Qminus, Qplus, Qopp, Qmult; cbn [Qnum Qden].
  rewrite !Pos2Z.inj_mul, HX.
  change (Zpos (2 ^ 53)) with (2 ^ 53).
  set (a := Zpos m * Zpos pn - k * X) in *.
  assert (Ha : 2 ^ 53 * a <= k * X /\ - (k * X) <= 2 ^ 53 * a) by lia.
  destruct Ha as [Ha1 Ha2].
  apply (Z.mul_le_mono_nonneg_r _ _ (Zpos pn)) in Ha1; [|lia].
  apply (Z.mul_le_mono_nonneg_r _ _ (Zpos pn)) in Ha2; [|lia].
  unfold a in *. split; lia.
Qed.

(** ** Grouping *)

Lemma count_rows_pos df r : In r df -> 0 < count_rows df.
Proof. unfold count_rows. destruct df; simpl; [tauto|lia]. Qed.

Lemma count_rows_filter f df : count_rows (filter f df) <= count_rows df.
Proof.
  unfold count_rows. apply inj_le.
  induction df as [|r t IH]; simpl; [lia|]. destruct (f r); simpl; lia.
Qed.

Section DistinctFacts.
Context {K : Type}.
Variable Keqb : K -> K -> bool.
Hypothesis Keqb_eq : forall a b, Keqb a b = true <-> a = b.

Lemma Keqb_refl a : Keqb a a = true.
Proof. now apply Keqb_eq. Qed.

Lemma distinct_In (l : list K) x : In x (distinct Keqb l) <-> In x l.
Proof.
  induction l as [|a t IH]; simpl; [tauto|].
  rewrite filter_In, IH. split.
  - tauto.
  - intros [->|H]; [now left|].
    destruct (Keqb x a) eqn:E.
    + apply Keqb_eq in E. now left.
    + right. now split.
Qed.

Lemma distinct_NoDup (l : list K) : NoDup (distinct Keqb l).
Proof.
  induction l as [|a t IH]; simpl; constructor.
  - rewrite filter_In. intros [_ H]. now rewrite Keqb_refl in H.
  - now apply NoDup_filter.
Qed.

Lemma get_group_In (key : Row -> K) df k r :
  In r (get_group Keqb key k df) <-> In r df /\ key r = k.
Proof. unfold get_group. now rewrite filter_In, Keqb_eq. Qed.
End DistinctFacts.

Section SortFacts.
Context {K : Type}.
Variable Kleb : K -> K -> bool.

Lemma insert_key_perm k (l : list K) : Permutation (insert_key Kleb k l) (k :: l).
Proof.
  induction l as [|x t IH]; simpl; [reflexivity|].
  destruct (Kleb k x); [reflexivity|].
  rewrite IH. apply perm_swap.
Qed.

Lemma sort_keys_perm (l : list K) : Permutation (sort_keys Kleb l) l.
Proof.
  induction l as [|x t IH]; simpl; [reflexivity|].
  rewrite insert_key_perm. now constructor.
Qed.

End SortFacts.

Section GroupByFacts.
Context {K : Type}.
Variable Keqb : K -> K -> bool.
Variable Kleb : K -> K -> bool.
Hypothesis Keqb_eq : forall a b, Keqb a b = true <-> a = b.
Variable key : Row -> K.

Lemma group_keys_In df k :
  In k (group_keys Keqb Kleb key df) <-> exists r, In r df /\ key r = k.
Proof.
  unfold group_keys. split.
  - intros H. apply (Permutation_in _ (sort_keys_perm _ _)) in H.
    apply (distinct_In _ Keqb_eq), in_map_iff in H. destruct H as (r & E & Hr). eauto.
  - intros (r & Hr & E).
    apply (Permutation_in _ (Permutation_sym (sort_keys_perm _ _))).
    apply (distinct_In _ Keqb_eq), in_map_iff. eauto.
Qed.

Lemma group_keys_NoDup df : NoDup (group_keys Keqb Kleb key df).
Proof.
  unfold group_keys.
  apply (Permutation_NoDup (Permutation_sym (sort_keys_perm _ _))).
  apply (distinct_NoDup _ Keqb_eq).
Qed.

Lemma groupby_apply_In {V} (f : DataFrame -> V) df k v :
  In (k, v) (groupby_apply Keqb Kleb key f df) <->
  (exists r, In r df /\ key r = k) /\ v = f (get_group Keqb key k df).
Proof.
  unfold groupby_apply. rewrite in_map_iff, <- group_keys_In. split.
  - intros (k' & E & H). injection E as -> ->. now split.
  - intros [H ->]. eauto.
Qed.

Lemma groupby_apply_keys {V} (f : DataFrame -> V) df :
  map fst (groupby_apply Keqb Kleb key f df) = group_keys Keqb Kleb key df.
Proof.
  unfold groupby_apply. rewrite map_map. simpl. apply map_id.
Qed.

(** The mean of the indicator over the groups of [df]. *)
Lemma groupby_mean_happy df k v :
  count_rows df < 2 ^ 53 ->
  In (k, v) (groupby_apply Keqb Kleb key mean_happy df) ->
  let g := get_group Keqb key k df in
  0 < count_rows g
  /\ v = ratio (count_rows (filter is_happy g)) (count_rows g)
  /\ SFleb float_zero v = true /\ SFleb v float_one = true.
Proof.
  intros Hlen H g. apply groupby_apply_In in H. destruct H as [(r & Hr & E) ->].
  assert (Hg : 0 < count_rows g).
  { apply (count_rows_pos _ r). apply (get_group_In _ Keqb_eq). now split. }
  assert (Hle : count_rows g <= count_rows df) by apply count_rows_filter.
  pose proof (count_rows_filter is_happy g) as Hh.
  assert (0 <= count_rows (filter is_happy g)) by (unfold count_rows; lia).
  repeat split; try assumption; apply ratio_range; fold g; lia.
Qed.

(** A group without a happy record has mean [+0.0]. *)
Lemma groupby_mean_happy_zero df k :
  count_rows df < 2 ^ 53 ->
  (exists r, In r df /\ key r = k) ->
  (forall r, In r df -> key r = k -> is_happy r = false) ->
  In (k, S754_zero false) (groupby_apply Keqb Kleb key mean_happy df).
Proof.
  intros Hlen (r & Hr & E) Hno. apply groupby_apply_In. split; [eauto|].
  unfold mean_happy.
  assert (Hg : 0 < count_rows (get_group Keqb key k df)).
  { apply (count_rows_pos _ r). apply (get_group_In _ Keqb_eq). now split. }
  pose proof (count_rows_filter (fun r => Keqb (key r) k) df) as Hle.
  fold (get_group Keqb key k df) in Hle.
  assert (E0 : filter is_happy (get_group Keqb key k df) = []).
  { destruct (filter is_happy (get_group Keqb key k df)) as [|x t] eqn:Ef; [reflexivity|].
    assert (Hx : In x (filter is_happy (get_group Keqb key k df))) by (rewrite Ef; now left).
    apply filter_In in Hx. destruct Hx as [Hx Hh].
    apply (get_group_In _ Keqb_eq) in Hx. destruct Hx as [Hx Ek].
    rewrite (Hno x Hx Ek) in Hh. discriminate. }
  rewrite E0. symmetry. apply ratio_zero. lia.
Qed.
End GroupByFacts.

Lemma genre_year_eqb_eq a b : genre_year_eqb a b = true <-> a = b.
Proof.
  unfold genre_year_eqb. destruct a as [g y], b as [g' y']; simpl.
  rewrite andb_true_iff, String.eqb_eq, Z.eqb_eq. split.
  - intros [-> ->]. reflexivity.
  - intros E. injection E as -> ->. now split.
Qed.

Lemma year_key_eqb_eq a b : year_key_eqb a b = true <-> a = b.
Proof.
  unfold year_key_eqb. destruct a as [y g], b as [y' g']; simpl.
  rewrite andb_true_iff, String.eqb_eq, Z.eqb_eq. split.
  - intros [-> ->]. reflexivity.
  - intros E. injection E as -> ->. now split.
Qed.

Lemma is_happy_spec r : is_happy r = true <-> mood_happy r = Some "happy".
Proof.
  unfold is_happy. destruct (mood_happy r) as [s|].
  - rewrite String.eqb_eq. split; [now intros -> | now intros [= ->]].
  - split; discriminate.
Qed.

(** ** Shares within a year *)

Lemma filter_map_comm {A B} (p : B -> bool) (f : A -> B) (l : list A) :
  filter p (map f l) = map f (filter (fun x => p (f x)) l).
Proof.
  induction l as [|x t IH]; simpl; [reflexivity|].
  destruct (p (f x)); simpl; now rewrite IH.
Qed.

Lemma Zsum_pos_member cs c :
  (forall x, In x cs -> 0 < x) -> In c cs -> 0 < c <= Zsum cs.
Proof.
  induction cs as [|x t IH]; simpl; intros Hpos Hc; [contradiction|].
  assert (Ht : 0 <= Zsum t).
  { clear -Hpos. induction t as [|y t IH]; simpl; [lia|].
    assert (0 < y) by (apply Hpos; simpl; auto).
    assert (0 <= Zsum t) by (apply IH; intros z Hz; apply Hpos; simpl in *; tauto).
    lia. }
  destruct Hc as [->|Hc].
  - assert (0 < c) by (apply Hpos; now left). lia.
  - assert (0 < c <= Zsum t) by (apply IH; auto). 
    assert (0 < x) by (apply Hpos; now left). lia.
Qed.

Section CountFacts.
Context {K : Type}.
Variable Keqb : K -> K -> bool.
Hypothesis Keqb_eq : forall a b, Keqb a b = true <-> a = b.

Lemma NoDup_count_matches (ks : list K) a :
  NoDup ks -> (List.length (filter (Keqb a) ks) <= 1)%nat.
Proof.
  induction 1 as [|k ks Hk Hnd IH]; simpl; [lia|].
  destruct (Keqb a k) eqn:E; [|assumption].
  apply Keqb_eq in E. subst k. simpl.
  assert (E0 : filter (Keqb a) ks = []).
  { destruct (filter (Keqb a) ks) as [|x t] eqn:Ef; [reflexivity|].
    assert (Hx : In x (filter (Keqb a) ks)) by (rewrite Ef; now left).
    apply filter_In in Hx. destruct Hx as [Hx Hxa].
    apply Keqb_eq in Hxa. subst x. contradiction. }
  rewrite E0. simpl. lia.
Qed.

(** Groups of distinct keys are disjoint: their sizes add up to at
    most the size of the table. *)
Lemma Zsum_group_counts (key : Row -> K) (ks : list K) df :
  NoDup ks ->
  Zsum (map (fun k => count_rows (get_group Keqb key k df)) ks) <= count_rows df.
Proof.
  intros Hnd. induction df as [|r df IH].
  - clear Hnd. induction ks as [|k ks IHk]; [unfold count_rows; simpl; lia|].
    cbn [map Zsum fold_right get_group filter count_rows List.length] in *.
    unfold Zsum in IHk. change (count_rows []) with 0 in *. lia.
  - assert (E : Zsum (map (fun k => count_rows (get_group Keqb key k (r :: df))) ks)
                = Z.of_nat (List.length (filter (Keqb (key r)) ks))
                  + Zsum (map (fun k => count_rows (get_group Keqb key k df)) ks)).
    { clear. induction ks as [|k ks IHk]; [reflexivity|].
      cbn [map Zsum fold_right filter]. fold (Zsum (map (fun k => count_rows (get_group Keqb key k (r :: df))) ks)).
      fold (Zsum (map (fun k => count_rows (get_group Keqb key k df)) ks)).
      rewrite IHk. unfold get_group at 1. cbn [filter].
      fold (get_group Keqb key k df).
      destruct (Keqb (key r) k); unfold count_rows; cbn [List.length]; lia. }
    rewrite E. pose proof (NoDup_count_matches ks (key r) Hnd).
    unfold count_rows in *. cbn [List.length]. lia.
Qed.
End CountFacts.

Lemma Qmake_plus a b p : ((a + b) # p == (a # p) + (b # p))%Q.
Proof. unfold Qeq, Qplus. cbn [Qnum Qden]. rewrite Pos2Z.inj_mul. ring. Qed.

(** The binary64 shares of counts that add up to [Zsum cs], summed
    exactly, are within [2 ^ -53] of the exact sum of the shares. *)
Lemma Qsum_ratio_error T cs :
  0 < T < 2 ^ 53 -> (forall c, In c cs -> 0 < c <= T) ->
  (Qabs (Qsum (map (fun c => SF2Q (ratio c T)) cs) - (Zsum cs # Z.to_pos T))
   <= (Zsum cs # Z.to_pos T) * (1 # 2 ^ 53))%Q.
Proof.
  intros HT. induction cs as [|c cs IH]; intros Hc.
  - cbn [map Qsum Zsum fold_right]. apply Qabs_Qle_condition.
    unfold Qle, Qminus, Qplus, Qopp, Qmult; cbn [Qnum Qden]. lia.
  - cbn [map Qsum Zsum fold_right].
    fold (Qsum (map (fun c => SF2Q (ratio c T)) cs)). fold (Zsum cs).
    rewrite Qmake_plus.
    assert (H1 := ratio_error c T ltac:(apply Hc; now left) ltac:(lia)).
    assert (H2 := IH ltac:(intros x Hx; apply Hc; now right)).
    set (x := SF2Q (ratio c T)) in *.
    set (S := Qsum (map (fun c => SF2Q (ratio c T)) cs)) in *.
    set (a := (c # Z.to_pos T)%Q) in *. set (A := (Zsum cs # Z.to_pos T)%Q) in *.
    setoid_replace (x + S - (a + A))%Q with ((x - a) + (S - A))%Q by ring.
    eapply Qle_trans; [apply Qabs_triangle|].
    setoid_replace ((a + A) * (1 # 2 ^ 53))%Q
      with (a * (1 # 2 ^ 53) + A * (1 # 2 ^ 53))%Q by ring.
    now apply Qplus_le_compat.
Qed.

Section ShareFacts.
Variable inner : Row -> string.

(** The counts of the groups of year [y], as the aggregate lists them. *)
Lemma year_counts_eq y fd :
  map cr_count (filter (fun c => cr_year c =? y) (transform_aggregate inner fd))
  = map (fun k => count_rows (get_group year_key_eqb (year_key inner) k fd))
      (filter (fun k => fst k =? y)
         (distinct year_key_eqb (map (year_key inner) fd))).
Proof.
  unfold transform_aggregate. rewrite filter_map_comm, map_map. reflexivity.
Qed.

Lemma year_counts_facts y fd :
  let cs := map cr_count (filter (fun c => cr_year c =? y)
                            (transform_aggregate inner fd)) in
  (forall c, In c cs -> 0 < c)
  /\ Zsum cs <= count_rows fd
  /\ ((exists r, In r fd /\ year r = y) -> exists c, In c cs).
Proof.
  intros cs. unfold cs. rewrite year_counts_eq. repeat split.
  - intros c Hc. apply in_map_iff in Hc. destruct Hc as (k & <- & Hk).
    apply filter_In in Hk. destruct Hk as [Hk _].
    apply (distinct_In _ year_key_eqb_eq), in_map_iff in Hk.
    destruct Hk as (r & E & Hr).
    apply (count_rows_pos _ r), (get_group_In _ year_key_eqb_eq). now split.
  - apply (Zsum_group_counts _ year_key_eqb_eq).
    apply NoDup_filter, (distinct_NoDup _ year_key_eqb_eq).
  - intros (r & Hr & E).
    exists (count_rows (get_group year_key_eqb (year_key inner) (year_key inner r) fd)).
    apply in_map_iff. exists (year_key inner r). split; [reflexivity|].
    apply filter_In. split.
    + apply (distinct_In _ year_key_eqb_eq), in_map_iff. eauto.
    + unfold year_key. simpl. now apply Z.eqb_eq.
Qed.

(** The proportions of one year are the binary64 quotients of the
    group counts of that year by their sum. *)
Lemma proportions_of_year_eq y fd :
  let cs := map cr_count (filter (fun c => cr_year c =? y)
                            (transform_aggregate inner fd)) in
  proportions_of_year y (proportion_by_year inner fd)
  = map (fun c => ratio c (Zsum cs)) cs.
Proof.
  intros cs. unfold cs, proportions_of_year, proportion_by_year,
    transform_calculate, transform_joinaggregate.
  set (rows := transform_aggregate inner fd).
  rewrite !filter_map_comm, !map_map. cbn [fst snd sh_year sh_proportion].
  apply map_ext_in. intros c Hc. apply filter_In in Hc. destruct Hc as [_ Hc].
  apply Z.eqb_eq in Hc. now rewrite Hc.
Qed.

(** Within a year present in the table, the proportions are binary64
    numbers between 0.0 and 1.0 whose exact sum is within [1e-9] of 1. *)
Lemma proportion_by_year_sum y fd :
  count_rows fd < 2 ^ 53 ->
  (exists r, In r fd /\ year r = y) ->
  let ps := proportions_of_year y (proportion_by_year inner fd) in
  (Qabs (Qsum (map SF2Q ps) - 1) <= 1 # 1000000000)%Q
  /\ Forall (fun p => SFleb float_zero p = true /\ SFleb p float_one = true) ps
  /\ ps <> [].
Proof.
  intros Hlen Hy ps. unfold ps. rewrite proportions_of_year_eq.
  destruct (year_counts_facts y fd) as (Hpos & Hsum & Hne).
  set (cs := map cr_count (filter (fun c => cr_year c =? y)
                             (transform_aggregate inner fd))) in *.
  destruct (Hne Hy) as (c0 & Hc0).
  assert (Hmem : forall c, In c cs -> 0 < c <= Zsum cs).
  { intros c Hc. now apply Zsum_pos_member. }
  assert (HT : 0 < Zsum cs < 2 ^ 53) by (specialize (Hmem c0 Hc0); lia).
  repeat split.
  - rewrite map_map.
    pose proof (Qsum_ratio_error (Zsum cs) cs HT Hmem) as H.
    assert (E1 : (Zsum cs # Z.to_pos (Zsum cs) == 1)%Q).
    { unfold Qeq. cbn [Qnum Qden]. rewrite Z2Pos.id by lia. ring. }
    rewrite E1 in H. eapply Qle_trans; [exact H|].
    unfold Qle, Qmult. cbn [Qnum Qden]. vm_compute. discriminate.
  - apply Forall_forall. intros p Hp. apply in_map_iff in Hp.
    destruct Hp as (c & <- & Hc). apply ratio_range; specialize (Hmem c Hc); lia.
  - destruct cs; [contradiction|discriminate].
Qed.
End ShareFacts.

(** ** Worked examples *)

(** One third in binary64 is [0x15555555555555 * 2 ^ -54]. *)
Example ratio_one_third : ratio 1 3 = S754_finite false 6004799503160661 (-54).
Proof. reflexivity. Qed.

Example ratio_self_is_one : ratio 7 7 = float_one.
Proof. reflexivity. Qed.

(** The mean of an empty boolean series is [0.0 / 0.0]. *)
Example mean_happy_empty : mean_happy [] = S754_nan.
Proof. reflexivity. Qed.

(** The example of the specification: both Rock records are happy. *)
Example year_stats_example :
  year_stats (filtered_data example_data [1969; 2019] ["Rock"] 8)
  = [(1969, float_one); (2019, float_one)].
Proof. reflexivity. Qed.

(** The group keys come out sorted, whatever the order of the records. *)
Example genre_stats_sorted :
  map fst (genre_stats [example_row 2019 "Rock" 20; example_row 1969 "Rock" 10;
                        example_row 2019 "Pop" 15; example_row 1969 "Pop" 5])
  = [("Pop", 1969); ("Pop", 2019); ("Rock", 1969); ("Rock", 2019)].
Proof. reflexivity. Qed.

(** Two genres of one record each share a year in halves. *)
Example genre_chart_example :
  proportions_of_year 1969 (genre_chart example_data)
  = [ratio 1 2; ratio 1 2]
  /\ map SF2Q (proportions_of_year 1969 (genre_chart example_data))
     = [(4503599627370496 # 9007199254740992)%Q; (4503599627370496 # 9007199254740992)%Q].
Proof. split; reflexivity. Qed.

Example avg_weeks_metric_example : avg_weeks_metric example_data = "12.5 weeks".
Proof. reflexivity. Qed.

Example axis_title_example : title (replace_underscore "peak_position") = "Peak Position".
Proof. reflexivity. Qed.

(** ** Filter: basic facts *)

Lemma isin_Z_In v values : isin_Z v values = true <-> In v values.
Proof.
  unfold isin_Z. rewrite existsb_exists. split.
  - intros (x & Hx & E). apply Z.eqb_eq in E. now subst.
  - intros H. exists v. split; [assumption | apply Z.eqb_refl].
Qed.

Lemma isin_str_In v values : isin_str v values = true <-> In v values.
Proof.
  unfold isin_str. rewrite existsb_exists. split.
  - intros (x & Hx & E). apply String.eqb_eq in E. now subst.
  - intros H. exists v. split; [assumption | apply String.eqb_refl].
Qed.

Lemma mask_spec years genres min_weeks r :
  mask years genres min_weeks r = true <->
  In (year r) years /\ In (genre_full r) genres /\ min_weeks <= weeks_on_chart r.
Proof.
  unfold mask. rewrite !andb_true_iff, isin_Z_In, isin_str_In, Z.leb_le. tauto.
Qed.

Lemma subseq_filter {A} (f : A -> bool) (l : list A) : subseq (filter f l) l.
Proof. induction l as [|x l IH]; simpl; [auto | destruct (f x); auto]. Qed.

Lemma subseq_In {A} (s l : list A) x : subseq s l -> In x s -> In x l.
Proof. induction 1; simpl; intuition. Qed.

Lemma subseq_length {A} (s l : list A) :
  subseq s l -> (List.length s <= List.length l)%nat.
Proof. induction 1; simpl; lia. Qed.

(** Filtering by a weaker mask keeps at least the same records. *)
Lemma subseq_filter_weaken {A} (f g : A -> bool) (l : list A) :
  (forall x, In x l -> f x = true -> g x = true) ->
  subseq (filter f l) (filter g l).
Proof.
  induction l as [|x l IH]; intros H; simpl; [auto|].
  assert (IH' : subseq (filter f l) (filter g l)).
  { apply IH. intros y Hy. apply H. now right. }
  destruct (f x) eqn:Ef.
  - rewrite (H x (or_introl eq_refl) Ef). auto.
  - destruct (g x); auto.
Qed.

Lemma multiselect_In {A} (options : list A) picked x :
  In x (multiselect options picked) -> In x options.
Proof.
  unfold multiselect. rewrite in_flat_map. intros (i & _ & Hx).
  destruct (nth_error options i) eqn:E; simpl in Hx; [|contradiction].
  destruct Hx as [<-|[]]. eapply nth_error_In; eauto.
Qed.

Lemma filtered_data_no_years ds genres min_weeks :
  filtered_data ds [] genres min_weeks = [].
Proof. unfold filtered_data. induction ds; simpl; auto. Qed.

Lemma filtered_data_no_genres ds years min_weeks :
  filtered_data ds years [] min_weeks = [].
Proof.
  unfold filtered_data, mask. induction ds as [|r ds IH]; simpl; auto.
  now rewrite andb_false_r.
Qed.

(** * Properties of the pipeline *)

(** C1: the filter returns exactly the records of the dataset whose year
    is among the selected years, whose genre is among the selected
    genres and whose weeks on chart reach the minimum; an empty year or
    genre selection gives the empty table; on the example of the
    specification it keeps the two Rock records. *)
Theorem filtered_data_exact :
  (forall ds years genres min_weeks r,
      In r (filtered_data ds years genres min_weeks) <->
      In r ds /\ In (year r) years /\ In (genre_full r) genres
      /\ min_weeks <= weeks_on_chart r)
  /\ (forall ds genres min_weeks, filtered_data ds [] genres min_weeks = [])
  /\ (forall ds years min_weeks, filtered_data ds years [] min_weeks = [])
  /\ filtered_data example_data [1969; 2019] ["Rock"] 8
     = [example_row 1969 "Rock" 10; example_row 2019 "Rock" 20].
Proof.
  split; [|split; [|split]].
  - intros. unfold filtered_data. rewrite filter_In, mask_spec. tauto.
  - exact filtered_data_no_years.
  - exact filtered_data_no_genres.
  - reflexivity.
Qed.

(** C2: widening the year selection, widening the genre selection and
    lowering the minimum number of weeks never removes a record from the
    filtered table: the narrower result is contained in the wider one,
    and is a subsequence of it. *)
Theorem filtered_data_monotone ds years years' genres genres' min_weeks min_weeks' :
  incl years years' -> incl genres genres' -> min_weeks' <= min_weeks ->
  incl (filtered_data ds years genres min_weeks)
       (filtered_data ds years' genres' min_weeks')
  /\ subseq (filtered_data ds years genres min_weeks)
            (filtered_data ds years' genres' min_weeks').
Proof.
  intros Hy Hg Hw.
  assert (S : subseq (filtered_data ds years genres min_weeks)
                     (filtered_data ds years' genres' min_weeks')).
  { apply subseq_filter_weaken. intros r _.
    rewrite !mask_spec. intros (H1 & H2 & H3).
    repeat split; [now apply Hy | now apply Hg | lia]. }
  split; [|exact S].
  intros r. now apply subseq_In.
Qed.

Lemma filtered_data_monotone_witness :
  incl (filtered_data example_data [1969] ["Rock"] 8)
       (filtered_data example_data [1969; 2019] ["Rock"; "Pop"] 0)
  /\ subseq (filtered_data example_data [1969] ["Rock"] 8)
            (filtered_data example_data [1969; 2019] ["Rock"; "Pop"] 0).
Proof.
  apply (filtered_data_monotone example_data [1969] [1969; 2019]
           ["Rock"] ["Rock"; "Pop"] 8 0).
  - intros y [<-|[]]; simpl; auto.
  - intros g [<-|[]]; simpl; auto.
  - lia.
Defined.

(** C3: the filtered table is a subsequence of the dataset (only records
    of the dataset, none repeated, in the dataset's order), and the
    assignment that produces it leaves [merged_data] as it was. *)
Theorem filtered_data_subseq :
  forall s years genres min_weeks,
    let s' := assign_filtered_data years genres min_weeks s in
    subseq (st_filtered_data s') (st_merged_data s)
    /\ st_merged_data s' = st_merged_data s
    /\ st_filtered_data s' = filtered_data (st_merged_data s) years genres min_weeks
    /\ (List.length (st_filtered_data s') <= List.length (st_merged_data s))%nat.
Proof.
  intros s years genres min_weeks. simpl.
  assert (S := subseq_filter (mask years genres min_weeks) (st_merged_data s)).
  repeat split; try assumption.
  now apply subseq_length.
Qed.

(** C9: the year selector offers exactly 1969 and 2019, a constant of
    the script; whatever the dataset and whatever is picked, every
    record of the filtered table has year 1969 or 2019. *)
Theorem selected_years_domain :
  year_options = [1969; 2019]
  /\ selected_years [0%nat; 1%nat] = [1969; 2019]
  /\ (forall picked y, In y (selected_years picked) -> y = 1969 \/ y = 2019)
  /\ (forall ds picked genres min_weeks r,
        In r (filtered_data ds (selected_years picked) genres min_weeks) ->
        year r = 1969 \/ year r = 2019)
  /\ filtered_data [example_row 1985 "Rock" 30] (selected_years [0%nat; 1%nat])
       ["Rock"] 0 = [].
Proof.
  assert (D : forall picked y, In y (selected_years picked) -> y = 1969 \/ y = 2019).
  { intros picked y H. apply multiselect_In in H. simpl in H. intuition. }
  repeat split; try reflexivity; try exact D.
  intros ds picked genres min_weeks r H.
  apply filter_In in H. destruct H as [_ H]. apply mask_spec in H.
  apply (D picked). tauto.
Qed.

Lemma count_happy_cells g :
  count_rows (filter is_happy g)
  = Z.of_nat (count_occ mood_eq_dec (map mood_happy g) (Some "happy")).
Proof.
  unfold count_rows. f_equal.
  induction g as [|r g IH]; [reflexivity|].
  cbn [filter map count_occ].
  destruct (mood_eq_dec (mood_happy r) (Some "happy")) as [E|E].
  - rewrite (proj2 (is_happy_spec r) E). cbn [List.length]. now rewrite IH.
  - destruct (is_happy r) eqn:H; [|exact IH].
    apply is_happy_spec in H. contradiction.
Qed.

Lemma ratio_error_le k n :
  0 <= k <= n -> 0 < n < 2 ^ 53 ->
  (Qabs (SF2Q (ratio k n) - (k # Z.to_pos n))
   <= (k # Z.to_pos n) * (1 # 2 ^ 53))%Q.
Proof.
  intros Hk Hn. destruct (Z.eq_dec k 0) as [->|Hk0].
  - rewrite ratio_zero by lia. apply Qabs_Qle_condition.
    unfold Qle, Qminus, Qplus, Qopp, Qmult; cbn [Qnum Qden SF2Q]. lia.
  - apply ratio_error; lia.
Qed.

(** The value of a group, in terms of the cells of its [mood_happy]
    column. *)
Lemma group_mean_value g v :
  0 < count_rows g < 2 ^ 53 ->
  v = ratio (count_rows (filter is_happy g)) (count_rows g) ->
  let happy := Z.of_nat (count_occ mood_eq_dec (map mood_happy g) (Some "happy")) in
  let n := Z.of_nat (List.length g) in
  0 < n /\ 0 <= happy <= n
  /\ v = SFdiv 53 1024 (binary_normalize 53 1024 happy 0 false)
           (binary_normalize 53 1024 n 0 false)
  /\ (Qabs (SF2Q v - (happy # Z.to_pos n)) <= (happy # Z.to_pos n) * (1 # 2 ^ 53))%Q.
Proof.
  intros Hg Hv happy n.
  pose proof (count_rows_filter is_happy g) as Hle.
  rewrite count_happy_cells in Hle, Hv. fold happy in Hle, Hv.
  change (count_rows g) with n in *.
  assert (H0 : 0 <= happy) by (unfold happy; lia).
  split; [lia|]. split; [lia|]. split; [exact Hv|].
  rewrite Hv. apply ratio_error_le; lia.
Qed.

(** C4: the mood tables hold one record per group key present in the
    filtered table and none for an absent key; the value of a group is
    the binary64 quotient of the number of its records whose
    [mood_happy] cell is the string [happy] by the number of its
    records, which is positive; it is within a relative error of
    [2 ^ -53] of the exact quotient and lies between 0.0 and 1.0.
    The table has fewer than [2 ^ 53] records, so that every count is
    a binary64 number. *)
Theorem mean_indicator_by_group fd :
  count_rows fd < 2 ^ 53 ->
  ((forall y, (exists r, In r fd /\ year r = y)
              <-> (exists v, In (y, v) (year_stats fd)))
   /\ NoDup (map fst (year_stats fd))
   /\ (forall y v, In (y, v) (year_stats fd) ->
         let g := filter (fun r => year r =? y) fd in
         let happy :=
           Z.of_nat (count_occ mood_eq_dec (map mood_happy g) (Some "happy")) in
         let n := Z.of_nat (List.length g) in
         0 < n /\ 0 <= happy <= n
         /\ v = SFdiv 53 1024 (binary_normalize 53 1024 happy 0 false)
                  (binary_normalize 53 1024 n 0 false)
         /\ (Qabs (SF2Q v - (happy # Z.to_pos n))
             <= (happy # Z.to_pos n) * (1 # 2 ^ 53))%Q
         /\ SFleb float_zero v = true /\ SFleb v float_one = true))
  /\ ((forall k, (exists r, In r fd /\ (genre_full r, year r) = k)
                 <-> (exists v, In (k, v) (genre_stats fd)))
      /\ NoDup (map fst (genre_stats fd))
      /\ (forall k v, In (k, v) (genre_stats fd) ->
            let g := filter (fun r => (genre_full r =? fst k)%string
                                      && (year r =? snd k)) fd in
            let happy :=
              Z.of_nat (count_occ mood_eq_dec (map mood_happy g) (Some "happy")) in
            let n := Z.of_nat (List.length g) in
            0 < n /\ 0 <= happy <= n
            /\ v = SFdiv 53 1024 (binary_normalize 53 1024 happy 0 false)
                     (binary_normalize 53 1024 n 0 false)
            /\ (Qabs (SF2Q v - (happy # Z.to_pos n))
                <= (happy # Z.to_pos n) * (1 # 2 ^ 53))%Q
            /\ SFleb float_zero v = true /\ SFleb v float_one = true)).
Proof.
  intros Hlen. split; (split; [|split]).
  - intros y. unfold year_stats. split.
    + intros H. eexists. apply (groupby_apply_In _ _ Z.eqb_eq). split; [exact H|reflexivity].
    + intros (v & H). now apply (groupby_apply_In _ _ Z.eqb_eq) in H.
  - unfold year_stats. rewrite groupby_apply_keys.
    apply (group_keys_NoDup _ _ Z.eqb_eq).
  - intros y v H.
    destruct (groupby_mean_happy _ _ Z.eqb_eq _ _ _ _ Hlen H) as (Hg & Hv & H0 & H1).
    pose proof (count_rows_filter (fun r => year r =? y) fd) as Hle.
    destruct (group_mean_value (filter (fun r => year r =? y) fd) v) as (A & B & C & D).
    + split; [exact Hg | lia].
    + exact Hv.
    + cbv zeta. repeat split; try assumption; lia.
  - intros k. unfold genre_stats. split.
    + intros H. eexists. apply (groupby_apply_In _ _ genre_year_eqb_eq).
      split; [exact H|reflexivity].
    + intros (v & H). now apply (groupby_apply_In _ _ genre_year_eqb_eq) in H.
  - unfold genre_stats. rewrite groupby_apply_keys.
    apply (group_keys_NoDup _ _ genre_year_eqb_eq).
  - intros k v H.
    destruct (groupby_mean_happy _ _ genre_year_eqb_eq _ _ _ _ Hlen H) as (Hg & Hv & H0 & H1).
    pose proof (count_rows_filter
                  (fun r => (genre_full r =? fst k)%string && (year r =? snd k)) fd) as Hle.
    destruct (group_mean_value
                (filter (fun r => (genre_full r =? fst k)%string && (year r =? snd k)) fd) v)
      as (A & B & C & D).
    + split; [exact Hg | lia].
    + exact Hv.
    + cbv zeta. repeat split; try assumption; lia.
Qed.

Lemma mean_indicator_by_group_witness :
  count_rows example_data < 2 ^ 53
  /\ NoDup (map fst (year_stats example_data))
  /\ NoDup (map fst (genre_stats example_data)).
Proof.
  assert (H : count_rows example_data < 2 ^ 53) by reflexivity.
  split; [exact H|].
  split.
  - exact (proj1 (proj2 (proj1 (mean_indicator_by_group example_data H)))).
  - exact (proj1 (proj2 (proj2 (mean_indicator_by_group example_data H)))).
Defined.

(** C5: within every year present in the filtered table, the
    proportions of the genre chart and of the gender chart, which are
    binary64 numbers between 0.0 and 1.0, add up (exactly, as rationals)
    to 1 within [1e-9].  The table has fewer than [2 ^ 53] records. *)
Theorem proportion_by_group_sums_to_one fd y :
  count_rows fd < 2 ^ 53 ->
  (exists r, In r fd /\ year r = y) ->
  (let ps := proportions_of_year y (genre_chart fd) in
   (Qabs (Qsum (map SF2Q ps) - 1) <= 1 # 1000000000)%Q
   /\ Forall (fun p => SFleb float_zero p = true /\ SFleb p float_one = true) ps
   /\ ps <> [])
  /\ (let ps := proportions_of_year y (gender_prop fd) in
      (Qabs (Qsum (map SF2Q ps) - 1) <= 1 # 1000000000)%Q
      /\ Forall (fun p => SFleb float_zero p = true /\ SFleb p float_one = true) ps
      /\ ps <> []).
Proof.
  intros Hlen Hy. split.
  - apply (proportion_by_year_sum genre_full y fd Hlen Hy).
  - apply (proportion_by_year_sum gender y fd Hlen Hy).
Qed.

Lemma proportion_by_group_sums_to_one_witness :
  (Qabs (Qsum (map SF2Q (proportions_of_year 1969 (genre_chart example_data))) - 1)
   <= 1 # 1000000000)%Q.
Proof.
  refine (proj1 (proj1 (proportion_by_group_sums_to_one example_data 1969 _ _))).
  - reflexivity.
  - exists (example_row 1969 "Rock" 10). split; [simpl; auto | reflexivity].
Defined.

(** C10: a record counts as happy exactly when its [mood_happy] cell is
    the string [happy]; a group present in the table none of whose
    records is happy is listed with the proportion [+0.0] (tables of
    fewer than [2 ^ 53] records). *)
Theorem happy_exact_match :
  (forall r, is_happy r = true <-> mood_happy r = Some "happy")
  /\ (forall fd y,
        count_rows fd < 2 ^ 53 ->
        (exists r, In r fd /\ year r = y) ->
        (forall r, In r fd -> year r = y -> mood_happy r <> Some "happy") ->
        In (y, S754_zero false) (year_stats fd))
  /\ (forall fd k,
        count_rows fd < 2 ^ 53 ->
        (exists r, In r fd /\ (genre_full r, year r) = k) ->
        (forall r, In r fd -> (genre_full r, year r) = k ->
                   mood_happy r <> Some "happy") ->
        In (k, S754_zero false) (genre_stats fd)).
Proof.
  assert (Hno : forall r, mood_happy r <> Some "happy" -> is_happy r = false).
  { intros r H. destruct (is_happy r) eqn:E; [|reflexivity].
    apply is_happy_spec in E. contradiction. }
  split; [exact is_happy_spec|]. split.
  - intros fd y Hlen Hy Hall.
    apply (groupby_mean_happy_zero _ _ Z.eqb_eq _ _ _ Hlen Hy).
    intros r Hr E. apply Hno. now apply Hall.
  - intros fd k Hlen Hk Hall.
    apply (groupby_mean_happy_zero _ _ genre_year_eqb_eq _ _ _ Hlen Hk).
    intros r Hr E. apply Hno. now apply Hall.
Qed.

Lemma happy_exact_match_witness :
  In (1969, S754_zero false)
     (year_stats [mkRow 1969 "Rock" 10 (Some "sad") "male" 1 120 (-8) "s" "a";
                  mkRow 1969 "Pop" 4 None "female" 2 100 (-5) "t" "b";
                  mkRow 1969 "Pop" 7 (Some "Happy") "female" 3 90 (-6) "u" "c"]).
Proof.
  apply (proj1 (proj2 happy_exact_match)).
  - reflexivity.
  - eexists. split; [left; reflexivity | reflexivity].
  - intros r [<-|[<-|[<-|[]]]] _; discriminate.
Defined.

(** C7, as the specification has it, fails: on an empty filtered table
    the mean is NaN and the metric reads [nan weeks], not [no data]. *)
Lemma avg_weeks_metric_no_data_counterexample :
  filtered_data example_data [] ["Rock"; "Pop"] 0 = []
  /\ avg_weeks (filtered_data example_data [] ["Rock"; "Pop"] 0) = S754_nan
  /\ avg_weeks_metric (filtered_data example_data [] ["Rock"; "Pop"] 0) = "nan weeks"
  /\ avg_weeks_metric (filtered_data example_data [] ["Rock"; "Pop"] 0) <> "no data".
Proof. repeat split; try reflexivity. discriminate. Qed.

(** C7, amended: on an empty filtered table every stage of the pipeline
    returns a value: the number of songs is 0, the mean of the weeks on
    chart is NaN and is printed as [nan weeks], and the summary tables
    are empty. *)
Theorem empty_selection_metrics :
  total_songs [] = 0
  /\ avg_weeks [] = S754_nan
  /\ avg_weeks_metric [] = "nan weeks"
  /\ (forall sel mood_view,
        pipeline [] sel mood_view
        = mkSummary [] 0 "nan weeks" []
            (match mood_view with
             | YearComparison => YearStats []
             | GenreBreakdown => GenreStats []
             end) [])
  /\ (forall ds genres min_weeks mood_view,
        pipeline ds (mkSelection [] genres min_weeks) mood_view
        = pipeline [] (mkSelection [] genres min_weeks) mood_view).
Proof.
  split; [reflexivity|]. split; [reflexivity|]. split; [reflexivity|]. split.
  - intros sel []; reflexivity.
  - intros ds genres min_weeks mood_view. unfold pipeline. cbn [sel_years sel_genres sel_min_weeks].
    now rewrite filtered_data_no_years.
Qed.

(** ** Resolving the fields of the chart *)

(** The schema of the frame names the ten columns of the file. *)
Example merged_schema_columns : map fst merged_schema = columns.
Proof. reflexivity. Qed.

(** With every column present, the specification of each choice of the
    select boxes is produced; here for the first options. *)
Example chart_spec_example :
  exists vl,
    chart_spec merged_schema example_data "peak_position" "weeks_on_chart"
      "mood_happy" false = Returned vl
    /\ vl_x vl = mkFieldDef "peak_position" Quantitative
    /\ vl_x_title vl = "Peak Position"
    /\ vl_color vl = mkFieldDef "mood_happy" Nominal.
Proof. eexists. split; [reflexivity|]. repeat split. Qed.












(** * Further properties of the script *)

(** ** The sidebar *)

Lemma subseq_trans {A} (a b c : list A) : subseq a b -> subseq b c -> subseq a c.
Proof.
  intros Hab Hbc. revert a Hab.
  induction Hbc as [|x s l Hbc IH|x s l Hbc IH]; intros a Hab.
  - exact Hab.
  - apply subseq_skip. now apply IH.
  - inversion Hab; subst.
    + apply subseq_skip. now apply IH.
    + apply subseq_keep. now apply IH.
Qed.

Lemma filter_andb {A} (f g : A -> bool) (l : list A) :
  filter f (filter g l) = filter (fun x => g x && f x) l.
Proof.
  induction l as [|x l IH]; simpl; [reflexivity|].
  destruct (g x); simpl; [destruct (f x)|]; now rewrite IH.
Qed.

Lemma filter_none {A} (f : A -> bool) (l : list A) :
  (forall x, In x l -> f x = false) -> filter f l = [].
Proof.
  induction l as [|x l IH]; intros H; simpl; [reflexivity|].
  rewrite (H x (or_introl eq_refl)). apply IH. intros y Hy. apply H. now right.
Qed.

Lemma multiselect_shift {A} (pre l : list A) :
  flat_map (fun i => match nth_error (pre ++ l)%list i with
                     | Some o => [o]
                     | None => []
                     end) (seq (List.length pre) (List.length l)) = l.
Proof.
  revert pre. induction l as [|x l IH]; intros pre; [reflexivity|].
  cbn [List.length seq flat_map].
  rewrite nth_error_app2, Nat.sub_diag by lia. cbn [nth_error app].
  f_equal. specialize (IH (pre ++ [x])%list).
  rewrite <- app_assoc, length_app in IH. cbn [List.length app] in IH.
  rewrite Nat.add_1_r in IH. exact IH.
Qed.

(** With every option chosen the widget returns the option list. *)
Lemma multiselect_default {A} (options : list A) :
  multiselect options (default_picks options) = options.
Proof. exact (multiselect_shift [] options). Qed.

Lemma fold_left_max ws w :
  w <= fold_left Z.max ws w
  /\ (forall x, In x ws -> x <= fold_left Z.max ws w)
  /\ (fold_left Z.max ws w = w \/ In (fold_left Z.max ws w) ws).
Proof.
  revert w. induction ws as [|y ws IH]; intros w; cbn [fold_left].
  - repeat split; [lia | contradiction | now left].
  - destruct (IH (Z.max w y)) as (H1 & H2 & H3). repeat split.
    + lia.
    + intros x [<-|Hx]; [lia | now apply H2].
    + destruct H3 as [E|Hin]; [|right; now right].
      rewrite E. destruct (Z.max_spec w y) as [[_ ->]|[_ ->]]; [right; now left | now left].
Qed.

Lemma unique_app l1 l2 :
  unique (l1 ++ l2)
  = (unique l1 ++ filter (fun g => negb (isin_str g l1)) (unique l2))%list.
Proof.
  unfold unique. induction l1 as [|x l1 IH].
  - cbn [app distinct isin_str existsb negb].
    induction (distinct String.eqb l2) as [|g t IHt]; [reflexivity|].
    cbn [filter]. now rewrite <- IHt.
  - cbn [app distinct]. rewrite IH, filter_app, filter_andb. f_equal. f_equal.
    apply filter_ext. intros g. unfold isin_str. cbn [existsb].
    rewrite negb_orb. apply andb_comm.
Qed.

(** X2: the genre options list every genre of the dataset, each once,
    in the order of first appearance: they are a subsequence of the
    column, and the options of a longer column are the options of its
    beginning followed by the genres that the beginning does not have. *)
Theorem unique_spec l1 l2 :
  NoDup (unique l1)
  /\ (forall g, In g (unique l1) <-> In g l1)
  /\ subseq (unique l1) l1
  /\ unique (l1 ++ l2)
     = (unique l1 ++ filter (fun g => negb (isin_str g l1)) (unique l2))%list
  /\ unique ["Rock"; "Pop"; "Rock"] = ["Rock"; "Pop"].
Proof.
  split; [apply (distinct_NoDup _ String.eqb_eq)|].
  split; [intros g; apply (distinct_In _ String.eqb_eq)|].
  split; [|split; [apply unique_app | reflexivity]].
  unfold unique. induction l1 as [|x l IH]; cbn [distinct]; [constructor|].
  apply subseq_keep. eapply subseq_trans; [apply subseq_filter | exact IH].
Qed.

(** X3: with the default genre selection (every option chosen) the
    genre test passes for every record of the dataset: the filter keeps
    exactly the records that pass the year and the weeks tests. *)
Theorem default_genres_keep_all ds years min_weeks :
  selected_genres ds (default_picks (unique (map genre_full ds)))
  = unique (map genre_full ds)
  /\ filtered_data ds years
       (selected_genres ds (default_picks (unique (map genre_full ds)))) min_weeks
     = filter (fun r => isin_Z (year r) years && (min_weeks <=? weeks_on_chart r)) ds.
Proof.
  assert (E : selected_genres ds (default_picks (unique (map genre_full ds)))
              = unique (map genre_full ds)) by apply multiselect_default.
  split; [exact E|]. rewrite E. unfold filtered_data.
  apply filter_ext_in. intros r Hr. unfold mask.
  assert (G : isin_str (genre_full r) (unique (map genre_full ds)) = true).
  { apply isin_str_In. unfold unique. apply (distinct_In _ String.eqb_eq), in_map. exact Hr. }
  rewrite G. now rewrite andb_true_r.
Qed.

(** X4: whatever is picked in the genre selector, the selection holds
    genres of the dataset only. *)
Theorem selected_genres_in_dataset ds picked :
  incl (selected_genres ds picked) (map genre_full ds).
Proof.
  intros g H. apply multiselect_In in H. unfold unique in H.
  exact (proj1 (distinct_In _ String.eqb_eq _ _) H).
Qed.

Lemma max_weeks_cons r ds :
  exists m, max_weeks (r :: ds) = Returned m
            /\ (forall x, In x (r :: ds) -> weeks_on_chart x <= m)
            /\ (exists x, In x (r :: ds) /\ weeks_on_chart x = m).
Proof.
  unfold max_weeks. cbn [map].
  destruct (fold_left_max (map weeks_on_chart ds) (weeks_on_chart r)) as (H1 & H2 & H3).
  eexists. split; [reflexivity|]. split.
  - intros x [<-|Hx]; [exact H1|]. apply H2. now apply in_map.
  - destruct H3 as [E|Hin].
    + exists r. split; [now left | now rewrite E].
    + apply in_map_iff in Hin. destruct Hin as (x & E & Hx).
      exists x. split; [now right | exact E].
Qed.

(** X5: the upper bound of the weeks slider cannot be computed for an
    empty dataset (the conversion of NaN raises); for a dataset with at
    least one record it is the largest [weeks_on_chart] of the dataset. *)
Theorem max_weeks_spec :
  max_weeks [] = Raised "ValueError"
  /\ forall r ds,
       exists m, max_weeks (r :: ds) = Returned m
                 /\ (forall x, In x (r :: ds) -> weeks_on_chart x <= m)
                 /\ (exists x, In x (r :: ds) /\ weeks_on_chart x = m).
Proof.
  split; [reflexivity | exact max_weeks_cons].
Qed.

(** X6: with the slider at its upper bound the filter keeps exactly the
    selected records whose weeks on chart equal the maximum; a larger
    minimum leaves nothing. *)
Theorem filtered_data_at_max ds years genres m :
  max_weeks ds = Returned m ->
  (forall r, In r (filtered_data ds years genres m) <->
             In r ds /\ In (year r) years /\ In (genre_full r) genres
             /\ weeks_on_chart r = m)
  /\ (forall w, m < w -> filtered_data ds years genres w = []).
Proof.
  intros Hm.
  assert (Hle : forall x, In x ds -> weeks_on_chart x <= m).
  { destruct ds as [|r ds]; [discriminate|].
    destruct (max_weeks_cons r ds) as (m' & E & H & _).
    rewrite E in Hm. injection Hm as <-. exact H. }
  split.
  - intros r. unfold filtered_data. rewrite filter_In, mask_spec. split.
    + intros (Hr & Hy & Hg & Hw). specialize (Hle r Hr). repeat split; auto; lia.
    + intros (Hr & Hy & Hg & Hw). repeat split; auto; lia.
  - intros w Hw. unfold filtered_data. apply filter_none. intros r Hr.
    destruct (mask years genres w r) eqn:E; [|reflexivity].
    apply mask_spec in E. specialize (Hle r Hr). lia.
Qed.

Lemma filtered_data_at_max_witness :
  max_weeks example_data = Returned 20
  /\ filtered_data example_data [1969; 2019] ["Rock"; "Pop"] 21 = [].
Proof.
  split; [reflexivity|].
  refine (proj2 (filtered_data_at_max example_data [1969; 2019] ["Rock"; "Pop"] 20 _) 21 _).
  - reflexivity.
  - reflexivity.
Defined.

(** X7: filtering twice is filtering once: the second pass with the
    same selection changes nothing, and two selections applied one
    after the other give the same table in either order. *)
Theorem filtered_data_compose ds years genres min_weeks years' genres' min_weeks' :
  filtered_data (filtered_data ds years genres min_weeks) years genres min_weeks
  = filtered_data ds years genres min_weeks
  /\ filtered_data (filtered_data ds years genres min_weeks) years' genres' min_weeks'
     = filtered_data (filtered_data ds years' genres' min_weeks') years genres min_weeks
  /\ subseq (filtered_data (filtered_data ds years genres min_weeks)
               years' genres' min_weeks')
            (filtered_data ds years genres min_weeks).
Proof.
  unfold filtered_data. split; [|split].
  - rewrite filter_andb. apply filter_ext. intros r.
    now destruct (mask years genres min_weeks r).
  - rewrite !filter_andb. apply filter_ext. intros r. apply andb_comm.
  - apply subseq_filter.
Qed.

(** ** Sorted group keys *)

Section SortedKeys.
Context {K : Type}.
Variable Kleb : K -> K -> bool.
Hypothesis Kleb_total : forall a b, Kleb a b = true \/ Kleb b a = true.

Lemma insert_key_HdRel x k (l : list K) :
  HdRel (fun a b => Kleb a b = true) x l -> Kleb x k = true ->
  HdRel (fun a b => Kleb a b = true) x (insert_key Kleb k l).
Proof.
  intros H Hk. destruct l as [|y t]; cbn [insert_key]; [now constructor|].
  destruct (Kleb k y); constructor; [assumption|]. now inversion H.
Qed.

Lemma insert_key_Sorted k (l : list K) :
  Sorted (fun a b => Kleb a b = true) l ->
  Sorted (fun a b => Kleb a b = true) (insert_key Kleb k l).
Proof.
  induction 1 as [|x t Ht IH Hx]; cbn [insert_key].
  - repeat constructor.
  - destruct (Kleb k x) eqn:E.
    + repeat constructor; assumption.
    + constructor; [exact IH|]. apply insert_key_HdRel; [exact Hx|].
      destruct (Kleb_total x k) as [H|H]; [exact H | congruence].
Qed.

Lemma sort_keys_Sorted (l : list K) :
  Sorted (fun a b => Kleb a b = true) (sort_keys Kleb l).
Proof.
  induction l as [|x t IH]; cbn [sort_keys fold_right]; [constructor|].
  now apply insert_key_Sorted.
Qed.
End SortedKeys.

Lemma genre_year_leb_total a b :
  genre_year_leb a b = true \/ genre_year_leb b a = true.
Proof.
  unfold genre_year_leb. rewrite (String.compare_antisym (fst a) (fst b)).
  destruct (String.compare (fst b) (fst a)); cbn [CompOpp]; auto.
  destruct (Z.leb_spec (snd a) (snd b)); [now left|].
  right. apply Z.leb_le. lia.
Qed.

Lemma Sorted_le_NoDup_lt (l : list Z) :
  Sorted (fun a b => (a <=? b) = true) l -> NoDup l -> Sorted Z.lt l.
Proof.
  induction 1 as [|x t Ht IH Hx]; intros Hnd; [constructor|].
  inversion Hnd as [|? ? Hnin Hnd']; subst. constructor; [now apply IH|].
  destruct Hx as [|y t' Hxy]; constructor.
  apply Z.leb_le in Hxy. assert (x <> y) by (intros ->; apply Hnin; now left). lia.
Qed.

(** X10: the records of the mood tables come in the order of their
    keys: the years of [year_stats] are strictly increasing, and the
    (genre, year) pairs of [genre_stats] are in lexicographic order. *)
Theorem mood_tables_sorted fd :
  Sorted Z.lt (map fst (year_stats fd))
  /\ Sorted (fun a b => genre_year_leb a b = true) (map fst (genre_stats fd)).
Proof.
  split.
  - unfold year_stats. rewrite groupby_apply_keys. apply Sorted_le_NoDup_lt.
    + apply sort_keys_Sorted. intros a b.
      destruct (Z.leb_spec a b); [now left|]. right. apply Z.leb_le. lia.
    + apply (group_keys_NoDup _ _ Z.eqb_eq).
  - unfold genre_stats. rewrite groupby_apply_keys.
    apply sort_keys_Sorted, genre_year_leb_total.
Qed.

(** X11: when the years come from the year selector, the year table
    has at most two records, one for 1969 and one for 2019 at most. *)
Theorem year_stats_at_most_two ds picked genres min_weeks :
  let fd := filtered_data ds (selected_years picked) genres min_weeks in
  (List.length (year_stats fd) <= 2)%nat
  /\ incl (map fst (year_stats fd)) [1969; 2019].
Proof.
  intros fd.
  assert (I : incl (map fst (year_stats fd)) [1969; 2019]).
  { intros y Hy. unfold year_stats in Hy. rewrite groupby_apply_keys in Hy.
    apply (group_keys_In _ _ Z.eqb_eq) in Hy. destruct Hy as (r & Hr & <-).
    apply filter_In in Hr. destruct Hr as [_ Hr]. apply mask_spec in Hr.
    destruct Hr as (Hy & _). apply multiselect_In in Hy. exact Hy. }
  split; [|exact I].
  rewrite <- (length_map fst).
  apply (NoDup_incl_length (l' := [1969; 2019])); [|exact I].
  unfold year_stats. rewrite groupby_apply_keys.
  apply (group_keys_NoDup _ _ Z.eqb_eq).
Qed.

(** ** Exact counts of the share records *)

Lemma filter_all {A} (f : A -> bool) (l : list A) :
  (forall x, In x l -> f x = true) -> filter f l = l.
Proof.
  induction l as [|x l IH]; intros H; simpl; [reflexivity|].
  rewrite (H x (or_introl eq_refl)). f_equal. apply IH. intros y Hy. apply H. now right.
Qed.

Section ExactCounts.
Context {K : Type}.
Variable Keqb : K -> K -> bool.
Hypothesis Keqb_eq : forall a b, Keqb a b = true <-> a = b.
Variable key : Row -> K.

Lemma count_matches_NoDup (ks : list K) a :
  NoDup ks ->
  Z.of_nat (List.length (filter (Keqb a) ks)) = if existsb (Keqb a) ks then 1 else 0.
Proof.
  induction 1 as [|k ks Hk Hnd IH]; cbn [filter existsb]; [reflexivity|].
  destruct (Keqb a k) eqn:E; cbn [orb]; [|exact IH].
  apply Keqb_eq in E. subst k.
  rewrite filter_none; [reflexivity|].
  intros x Hx. destruct (Keqb a x) eqn:Ex; [|reflexivity].
  apply Keqb_eq in Ex. subst x. contradiction.
Qed.

Lemma Zsum_group_counts_nil (ks : list K) :
  Zsum (map (fun k => count_rows (get_group Keqb key k [])) ks) = 0.
Proof. induction ks as [|k ks IH]; [reflexivity|]. cbn [map Zsum fold_right]. exact IH. Qed.

Lemma Zsum_group_counts_cons (ks : list K) r df :
  Zsum (map (fun k => count_rows (get_group Keqb key k (r :: df))) ks)
  = Z.of_nat (List.length (filter (Keqb (key r)) ks))
    + Zsum (map (fun k => count_rows (get_group Keqb key k df)) ks).
Proof.
  induction ks as [|k ks IH]; [reflexivity|].
  cbn [map Zsum fold_right filter].
  fold (Zsum (map (fun k => count_rows (get_group Keqb key k (r :: df))) ks)).
  fold (Zsum (map (fun k => count_rows (get_group Keqb key k df)) ks)).
  rewrite IH. unfold get_group at 1. cbn [filter].
  fold (get_group Keqb key k df).
  destruct (Keqb (key r) k); unfold count_rows; cbn [List.length]; lia.
Qed.

(** The groups of distinct keys are disjoint: their sizes add up to the
    number of records whose key is among them. *)
Lemma Zsum_group_counts_exact (ks : list K) df :
  NoDup ks ->
  Zsum (map (fun k => count_rows (get_group Keqb key k df)) ks)
  = count_rows (filter (fun r => existsb (Keqb (key r)) ks) df).
Proof.
  intros Hnd. induction df as [|r df IH].
  - apply Zsum_group_counts_nil.
  - rewrite Zsum_group_counts_cons, IH, (count_matches_NoDup ks (key r) Hnd).
    cbn [filter]. destruct (existsb (Keqb (key r)) ks);
      unfold count_rows; cbn [List.length]; lia.
Qed.
End ExactCounts.

Section ShareRecords.
Variable inner : Row -> string.

(** The number of records of year [y] in [fd]. *)
Lemma year_total_eq y fd :
  Zsum (map cr_count (filter (fun c => cr_year c =? y) (transform_aggregate inner fd)))
  = count_rows (filter (fun r => year r =? y) fd).
Proof.
  rewrite year_counts_eq.
  rewrite (Zsum_group_counts_exact _ year_key_eqb_eq).
  2:{ apply NoDup_filter, (distinct_NoDup _ year_key_eqb_eq). }
  f_equal. apply filter_ext_in. intros r Hr.
  destruct (year r =? y) eqn:E.
  - apply existsb_exists. exists (year_key inner r). split.
    + apply filter_In. split; [|exact E].
      apply (distinct_In _ year_key_eqb_eq), in_map. exact Hr.
    + now apply year_key_eqb_eq.
  - destruct (existsb _ _) eqn:Ex; [|reflexivity].
    apply existsb_exists in Ex. destruct Ex as (k & Hk & Ek).
    apply year_key_eqb_eq in Ek. subst k.
    apply filter_In in Hk. destruct Hk as [_ Hk]. cbn in Hk. congruence.
Qed.

(** The records of the chart, one per key of the aggregate. *)
Lemma proportion_by_year_eq fd :
  proportion_by_year inner fd
  = map (fun k =>
           let c := count_rows (filter (fun r => (year r =? fst k)
                                                 && (inner r =? snd k)%string) fd) in
           let t := count_rows (filter (fun r => year r =? fst k) fd) in
           mkShareRow (fst k) (snd k) c t (ratio c t))
        (distinct year_key_eqb (map (year_key inner) fd)).
Proof.
  unfold proportion_by_year, transform_calculate, transform_joinaggregate.
  rewrite map_map. cbn [fst snd].
  transitivity
    (map (fun c =>
            let t := count_rows (filter (fun r => year r =? cr_year c) fd) in
            mkShareRow (cr_year c) (cr_key c) (cr_count c) t (ratio (cr_count c) t))
         (transform_aggregate inner fd)).
  { apply map_ext. intros c. now rewrite year_total_eq. }
  unfold transform_aggregate. rewrite map_map. reflexivity.
Qed.

Lemma share_records_counts fd :
  Forall (fun s =>
            sh_count s = count_rows (filter (fun r => (year r =? sh_year s)
                                                      && (inner r =? sh_key s)%string) fd)
            /\ sh_total s = count_rows (filter (fun r => year r =? sh_year s) fd)
            /\ 0 < sh_count s <= sh_total s
            /\ sh_proportion s = ratio (sh_count s) (sh_total s))
         (proportion_by_year inner fd).
Proof.
  rewrite proportion_by_year_eq. apply Forall_forall. intros s Hs.
  apply in_map_iff in Hs. destruct Hs as (k & <- & Hk).
  cbn [sh_count sh_total sh_year sh_key sh_proportion].
  repeat split.
  - apply (distinct_In _ year_key_eqb_eq), in_map_iff in Hk.
    destruct Hk as (r & <- & Hr). apply (count_rows_pos _ r).
    apply filter_In. split; [exact Hr|]. cbn [year_key fst snd].
    now rewrite Z.eqb_refl, String.eqb_refl.
  - rewrite <- (filter_andb (fun r => (inner r =? snd k)%string)
                  (fun r => year r =? fst k)).
    apply count_rows_filter.
Qed.

Lemma share_records_keys fd :
  (forall y g, (exists r, In r fd /\ year r = y /\ inner r = g)
               <-> (exists s, In s (proportion_by_year inner fd)
                              /\ sh_year s = y /\ sh_key s = g))
  /\ NoDup (map (fun s => (sh_year s, sh_key s)) (proportion_by_year inner fd)).
Proof.
  rewrite proportion_by_year_eq. split.
  - intros y g. split.
    + intros (r & Hr & <- & <-). eexists. split.
      * apply in_map. apply (distinct_In _ year_key_eqb_eq).
        apply (in_map (year_key inner)). exact Hr.
      * split; reflexivity.
    + intros (s & Hs & <- & <-). apply in_map_iff in Hs.
      destruct Hs as (k & <- & Hk).
      apply (distinct_In _ year_key_eqb_eq), in_map_iff in Hk.
      destruct Hk as (r & <- & Hr). exists r. repeat split. exact Hr.
  - rewrite map_map. cbn [sh_year sh_key].
    rewrite (map_ext _ (fun k => k)) by (intros []; reflexivity).
    rewrite map_id. apply (distinct_NoDup _ year_key_eqb_eq).
Qed.

Lemma share_records_total fd :
  Zsum (map sh_count (proportion_by_year inner fd)) = count_rows fd.
Proof.
  rewrite proportion_by_year_eq, map_map. cbn [sh_count].
  change (Zsum (map (fun k => count_rows (get_group year_key_eqb (year_key inner) k fd))
                    (distinct year_key_eqb (map (year_key inner) fd)))
          = count_rows fd).
  rewrite (Zsum_group_counts_exact _ year_key_eqb_eq)
    by apply (distinct_NoDup _ year_key_eqb_eq).
  f_equal. apply filter_all. intros r Hr. apply existsb_exists.
  exists (year_key inner r). split.
  - apply (distinct_In _ year_key_eqb_eq), in_map. exact Hr.
  - now apply year_key_eqb_eq.
Qed.
End ShareRecords.

(** X8: every record of the genre chart and of the gender chart holds
    the number of filtered records of its year and key as [count], the
    number of filtered records of its year as [total], a positive count
    that is at most the total, and their binary64 quotient. *)
Theorem share_record_counts fd :
  Forall (fun s =>
            sh_count s = count_rows (filter (fun r => (year r =? sh_year s)
                                               && (genre_full r =? sh_key s)%string) fd)
            /\ sh_total s = count_rows (filter (fun r => year r =? sh_year s) fd)
            /\ 0 < sh_count s <= sh_total s
            /\ sh_proportion s = ratio (sh_count s) (sh_total s))
         (genre_chart fd)
  /\ Forall (fun s =>
               sh_count s = count_rows (filter (fun r => (year r =? sh_year s)
                                                  && (gender r =? sh_key s)%string) fd)
               /\ sh_total s = count_rows (filter (fun r => year r =? sh_year s) fd)
               /\ 0 < sh_count s <= sh_total s
               /\ sh_proportion s = ratio (sh_count s) (sh_total s))
            (gender_prop fd).
Proof.
  split; [apply (share_records_counts genre_full) | apply (share_records_counts gender)].
Qed.

(** X9: the genre chart has one record for each (year, genre) pair that
    occurs in the filtered table and no other record; the gender chart
    likewise for (year, gender) pairs. *)
Theorem share_record_keys fd :
  ((forall y g, (exists r, In r fd /\ year r = y /\ genre_full r = g)
                <-> (exists s, In s (genre_chart fd) /\ sh_year s = y /\ sh_key s = g))
   /\ NoDup (map (fun s => (sh_year s, sh_key s)) (genre_chart fd)))
  /\ ((forall y g, (exists r, In r fd /\ year r = y /\ gender r = g)
                   <-> (exists s, In s (gender_prop fd) /\ sh_year s = y /\ sh_key s = g))
      /\ NoDup (map (fun s => (sh_year s, sh_key s)) (gender_prop fd))).
Proof.
  split; [apply (share_records_keys genre_full) | apply (share_records_keys gender)].
Qed.

(** X12: the counts of the records of either chart add up to the
    number shown as "Total Songs Analyzed". *)
Theorem share_counts_total fd :
  Zsum (map sh_count (genre_chart fd)) = total_songs fd
  /\ Zsum (map sh_count (gender_prop fd)) = total_songs fd.
Proof.
  split; [apply (share_records_total genre_full) | apply (share_records_total gender)].
Qed.

(** ** Exact quotients *)

Lemma SFdiv_self m e :
  2 ^ 52 <= Zpos m < 2 ^ 53 -> -52 <= e <= 0 ->
  SFdiv 53 1024 (S754_finite false m e) (S754_finite false m e) = float_one.
Proof.
  intros Hm He. unfold SFdiv.
  rewrite SFdiv_core_binary_normal by lia.
  rewrite (Z.mul_comm (Zpos m)), Z.div_mul, Z.mod_mul by lia.
  replace (e - e - 53) with (-53) by lia.
  assert (E : new_location (Zpos m) 0 = loc_Exact).
  { unfold new_location, new_location_even, new_location_odd.
    now destruct (Z.even (Zpos m)). }
  rewrite E. reflexivity.
Qed.

(** A positive count divided by itself is exactly 1.0. *)
Lemma ratio_self n : 0 < n < 2 ^ 53 -> ratio n n = float_one.
Proof.
  intros Hn. destruct n as [|p|p]; try lia.
  destruct (Z2SF_pos p) as (m & E & Hm & _); [lia|].
  unfold ratio, float_div. rewrite E. apply SFdiv_self; [exact Hm|].
  pose proof (Z.log2_nonneg (Zpos p)).
  assert (Z.log2 (Zpos p) < 53) by (apply Z.log2_lt_pow2; lia). lia.
Qed.

Lemma NoDup_all_eq {A} (l : list A) a :
  NoDup l -> (forall x, In x l -> x = a) -> l = [] \/ l = [a].
Proof.
  intros Hnd Hall. destruct l as [|x [|y t]]; [now left| |].
  - right. f_equal. apply Hall. now left.
  - exfalso. inversion Hnd as [|? ? Hnin _]; subst. apply Hnin.
    rewrite (Hall x), (Hall y); simpl; auto.
Qed.

Section AllHappy.
Context {K : Type}.
Variable Keqb : K -> K -> bool.
Variable Kleb : K -> K -> bool.
Hypothesis Keqb_eq : forall a b, Keqb a b = true <-> a = b.
Variable key : Row -> K.

(** A group all of whose records are happy has mean 1.0. *)
Lemma groupby_mean_happy_one df k :
  count_rows df < 2 ^ 53 ->
  (exists r, In r df /\ key r = k) ->
  (forall r, In r df -> key r = k -> is_happy r = true) ->
  In (k, float_one) (groupby_apply Keqb Kleb key mean_happy df).
Proof.
  intros Hlen (r & Hr & E) Hall. apply (groupby_apply_In _ _ Keqb_eq). split; [eauto|].
  unfold mean_happy.
  assert (Hg : 0 < count_rows (get_group Keqb key k df)).
  { apply (count_rows_pos _ r). apply (get_group_In _ Keqb_eq). now split. }
  pose proof (count_rows_filter (fun r => Keqb (key r) k) df) as Hle.
  fold (get_group Keqb key k df) in Hle.
  rewrite filter_all.
  - symmetry. apply ratio_self. lia.
  - intros x Hx. apply (get_group_In _ Keqb_eq) in Hx. destruct Hx as [Hx Ek].
    now apply Hall.
Qed.
End AllHappy.

(** X13: a group present in the table all of whose records are happy
    is listed with the proportion 1.0 exactly (tables of fewer than
    [2 ^ 53] records). *)
Theorem all_happy_is_one fd :
  count_rows fd < 2 ^ 53 ->
  (forall y, (exists r, In r fd /\ year r = y) ->
             (forall r, In r fd -> year r = y -> mood_happy r = Some "happy") ->
             In (y, float_one) (year_stats fd))
  /\ (forall k, (exists r, In r fd /\ (genre_full r, year r) = k) ->
                (forall r, In r fd -> (genre_full r, year r) = k ->
                           mood_happy r = Some "happy") ->
                In (k, float_one) (genre_stats fd)).
Proof.
  intros Hlen. split.
  - intros y Hy Hall. apply (groupby_mean_happy_one _ _ Z.eqb_eq _ _ _ Hlen Hy).
    intros r Hr E. apply is_happy_spec. now apply Hall.
  - intros k Hk Hall.
    apply (groupby_mean_happy_one _ _ genre_year_eqb_eq _ _ _ Hlen Hk).
    intros r Hr E. apply is_happy_spec. now apply Hall.
Qed.

Lemma all_happy_is_one_witness :
  In (1969, float_one) (year_stats example_data).
Proof.
  refine (proj1 (all_happy_is_one example_data _) 1969 _ _).
  - reflexivity.
  - exists (example_row 1969 "Rock" 10). split; [now left | reflexivity].
  - intros r [<-|[<-|[<-|[<-|[]]]]] _; reflexivity.
Defined.

Section SingleShare.
Variable inner : Row -> string.

(** A year all of whose records have the same inner key has a single
    share, 1.0. *)
Lemma single_key_share fd y g :
  count_rows fd < 2 ^ 53 ->
  (exists r, In r fd /\ year r = y) ->
  (forall r, In r fd -> year r = y -> inner r = g) ->
  proportions_of_year y (proportion_by_year inner fd) = [float_one].
Proof.
  intros Hlen Hy Hall. rewrite proportions_of_year_eq.
  destruct (year_counts_facts inner y fd) as (Hpos & Hsum & Hne).
  revert Hpos Hsum Hne. rewrite year_counts_eq. intros Hpos Hsum Hne.
  assert (Hks : filter (fun k => fst k =? y)
                  (distinct year_key_eqb (map (year_key inner) fd)) = [(y, g)]).
  { destruct (NoDup_all_eq
                (filter (fun k => fst k =? y)
                   (distinct year_key_eqb (map (year_key inner) fd))) (y, g))
      as [E|E]; [| |rewrite E in Hne|exact E].
    - apply NoDup_filter, (distinct_NoDup _ year_key_eqb_eq).
    - intros k Hk. apply filter_In in Hk. destruct Hk as [Hk Ey].
      apply (distinct_In _ year_key_eqb_eq), in_map_iff in Hk.
      destruct Hk as (r & <- & Hr). apply Z.eqb_eq in Ey. cbn in Ey.
      unfold year_key. f_equal; [exact Ey | now apply Hall].
    - destruct (Hne Hy) as (c & []). }
  rewrite Hks in *. cbn [map Zsum fold_right] in *.
  rewrite Z.add_0_r in *.
  f_equal. apply ratio_self. split; [|lia]. apply Hpos. now left.
Qed.
End SingleShare.

(** X14: a year of the genre chart all of whose records have one genre
    shows a single bar of proportion 1.0 exactly, and likewise for the
    gender chart (tables of fewer than [2 ^ 53] records). *)
Theorem single_group_share fd y g :
  count_rows fd < 2 ^ 53 ->
  (exists r, In r fd /\ year r = y) ->
  ((forall r, In r fd -> year r = y -> genre_full r = g) ->
   proportions_of_year y (genre_chart fd) = [float_one])
  /\ ((forall r, In r fd -> year r = y -> gender r = g) ->
      proportions_of_year y (gender_prop fd) = [float_one]).
Proof.
  intros Hlen Hy. split; intros Hall.
  - exact (single_key_share genre_full fd y g Hlen Hy Hall).
  - exact (single_key_share gender fd y g Hlen Hy Hall).
Qed.

Lemma single_group_share_witness :
  proportions_of_year 1969 (gender_prop example_data) = [float_one].
Proof.
  refine (proj2 (single_group_share example_data 1969 "male" _ _) _).
  - reflexivity.
  - exists (example_row 1969 "Rock" 10). split; [now left | reflexivity].
  - intros r [<-|[<-|[<-|[<-|[]]]]] _; reflexivity.
Defined.

(** ** The mean of the weeks on chart *)

Lemma abs_scale_r W a b d :
  0 < W -> Z.abs (a * W - b * W) <= d -> Z.abs (a - b) * W <= d.
Proof.
  intros HW H. replace (a * W - b * W) with ((a - b) * W) in H by ring.
  now rewrite Z.abs_mul, (Z.abs_eq W) in H by lia.
Qed.

(** The quotient of two positive counts below [2 ^ 53]: a normal
    number within a relative error of [2 ^ -53] of the exact quotient. *)
Lemma ratio_spec_pos k n :
  0 < k < 2 ^ 53 -> 0 < n < 2 ^ 53 ->
  exists m e,
    ratio k n = S754_finite false m e
    /\ (e < 0 -> 2 ^ 53 * Z.abs (Zpos m * n - k * 2 ^ (- e)) <= k * 2 ^ (- e))
    /\ (0 <= e -> 2 ^ 53 * Z.abs (Zpos m * 2 ^ e * n - k) <= k).
Proof.
  intros Hk Hn.
  destruct k as [|pk|pk]; try lia. destruct n as [|pn|pn]; try lia.
  destruct (Z2SF_pos pk) as (m1 & E1 & B1 & V1); [lia|].
  destruct (Z2SF_pos pn) as (m2 & E2 & B2 & V2); [lia|].
  pose proof (Z.log2_nonneg (Zpos pk)) as Hk0.
  pose proof (Z.log2_nonneg (Zpos pn)) as Hn0.
  assert (Hk52 : Z.log2 (Zpos pk) < 53) by (apply Z.log2_lt_pow2; lia).
  assert (Hn52 : Z.log2 (Zpos pn) < 53) by (apply Z.log2_lt_pow2; lia).
  set (dk := Z.log2 (Zpos pk)) in *. set (dn := Z.log2 (Zpos pn)) in *.
  unfold ratio, float_div. rewrite E1, E2.
  destruct (SFdiv_normal m1 (dk - 52) m2 (dn - 52)) as (m & e & c & -> & Hm & Hc & Hb);
    try lia.
  exists m, e. split; [reflexivity|].
  set (k := Zpos pk) in *. set (n := Zpos pn) in *.
  set (P1 := 2 ^ (52 - dk)) in *. set (P2 := 2 ^ (52 - dn)) in *.
  assert (HP1 : 0 < P1) by (apply Z.pow_pos_nonneg; lia).
  assert (HP2 : 0 < P2) by (apply Z.pow_pos_nonneg; lia).
  assert (exists t, 0 <= t <= 2 /\ c = 2 ^ t /\ e = dk - dn - 53 + t) as (t & Ht & Ec & Ee).
  { destruct Hc as [[-> ->]|[[-> ->]|[-> ->]]];
      [exists 0 | exists 1 | exists 2]; repeat split; lia. }
  set (W := c * P2).
  assert (HW : 0 < W).
  { unfold W. apply Z.mul_pos_pos; [|assumption]. rewrite Ec. apply Z.pow_pos_nonneg; lia. }
  rewrite V1, V2 in Hb.
  assert (Hb' : Z.abs (Zpos m * n * W - k * P1 * 2 ^ 53) <= k * P1).
  { replace (Zpos m * n * W) with (Zpos m * c * (n * P2)) by (unfold W; ring). exact Hb. }
  clear Hb. split; intros Hsign.
  - set (X := 2 ^ (- e)).
    assert (HX : 0 < X) by (apply Z.pow_pos_nonneg; lia).
    assert (I : W * X = P1 * 2 ^ 53).
    { unfold W, X, P1, P2. rewrite Ec, <- !Z.pow_add_r by lia. f_equal. lia. }
    assert (I' : k * X * W = k * P1 * 2 ^ 53) by (rewrite <- Z.mul_assoc, (Z.mul_comm X), I; ring).
    rewrite <- I' in Hb'. apply abs_scale_r in Hb'; [|exact HW].
    apply (Z.mul_le_mono_pos_r _ _ W); [exact HW|].
    apply (Z.mul_le_mono_nonneg_l _ _ (2 ^ 53)) in Hb'; [|lia].
    replace (2 ^ 53 * Z.abs (Zpos m * n - k * X) * W)
      with (2 ^ 53 * (Z.abs (Zpos m * n - k * X) * W)) by ring.
    lia.
  - set (Y := 2 ^ e).
    assert (HY : 0 < Y) by (apply Z.pow_pos_nonneg; lia).
    assert (I : Y * P1 * 2 ^ 53 = W).
    { unfold W, Y, P1, P2. rewrite Ec, <- !Z.pow_add_r by lia. f_equal. lia. }
    assert (Hb2 : Z.abs (Zpos m * Y * n * W - k * W) <= k * P1 * Y).
    { replace (Zpos m * Y * n * W - k * W)
        with ((Zpos m * n * W - k * P1 * 2 ^ 53) * Y) by (rewrite <- I at 3; ring).
      rewrite Z.abs_mul, (Z.abs_eq Y) by lia.
      apply Z.mul_le_mono_nonneg_r; [lia | exact Hb']. }
    apply abs_scale_r in Hb2; [|exact HW].
    apply (Z.mul_le_mono_pos_r _ _ W); [exact HW|].
    apply (Z.mul_le_mono_nonneg_l _ _ (2 ^ 53)) in Hb2; [|lia].
    replace (2 ^ 53 * (k * P1 * Y)) with (k * W) in Hb2 by (rewrite <- I; ring).
    replace (2 ^ 53 * Z.abs (Zpos m * Y * n - k) * W)
      with (2 ^ 53 * (Z.abs (Zpos m * Y * n - k) * W)) by ring.
    exact Hb2.
Qed.

Lemma ratio_error_pos k n :
  0 < k < 2 ^ 53 -> 0 < n < 2 ^ 53 ->
  is_finite (ratio k n) = true
  /\ (Qabs (SF2Q (ratio k n) - (k # Z.to_pos n))
      <= (k # Z.to_pos n) * (1 # 2 ^ 53))%Q.
Proof.
  intros Hk Hn.
  destruct (ratio_spec_pos k n Hk Hn) as (m & e & -> & Hneg & Hpos).
  split; [reflexivity|].
  destruct n as [|pn|pn]; try lia. cbn [Z.to_pos SF2Q].
  apply Qabs_Qle_condition.
  destruct e as [|p|p].
  - specialize (Hpos ltac:(lia)). rewrite Z.pow_0_r, Z.mul_1_r in Hpos.
    unfold Qle, Qminus, Qplus, Qopp, Qmult; cbn [Qnum Qden].
    rewrite !Pos2Z.inj_mul. change (Zpos (2 ^ 53)) with (2 ^ 53).
    set (a := Zpos m * Zpos pn - k) in *.
    assert (Ha : 2 ^ 53 * a <= k /\ - k <= 2 ^ 53 * a) by lia.
    destruct Ha as [Ha1 Ha2].
    apply (Z.mul_le_mono_nonneg_r _ _ (Zpos pn)) in Ha1; [|lia].
    apply (Z.mul_le_mono_nonneg_r _ _ (Zpos pn)) in Ha2; [|lia].
    unfold a in *. split; lia.
  - specialize (Hpos ltac:(lia)).
    set (Y := 2 ^ Zpos p) in *.
    unfold Qle, Qminus, Qplus, Qopp, Qmult; cbn [Qnum Qden].
    rewrite !Pos2Z.inj_mul. change (Zpos (2 ^ 53)) with (2 ^ 53).
    set (a := Zpos m * Y * Zpos pn - k) in *.
    assert (Ha : 2 ^ 53 * a <= k /\ - k <= 2 ^ 53 * a) by lia.
    destruct Ha as [Ha1 Ha2].
    apply (Z.mul_le_mono_nonneg_r _ _ (Zpos pn)) in Ha1; [|lia].
    apply (Z.mul_le_mono_nonneg_r _ _ (Zpos pn)) in Ha2; [|lia].
    unfold a in *. split; lia.
  - specialize (Hneg ltac:(lia)). change (- Zneg p) with (Zpos p) in Hneg.
    set (X := 2 ^ Zpos p) in *.
    assert (HX : Zpos (2 ^ p) = X) by (unfold X; apply Pos2Z.inj_pow).
    assert (HX0 : 0 < X) by (rewrite <- HX; lia).
    unfold Qle, Qminus, Qplus, Qopp, Qmult; cbn [Qnum Qden].
    rewrite !Pos2Z.inj_mul, HX. change (Zpos (2 ^ 53)) with (2 ^ 53).
    set (a := Zpos m * Zpos pn - k * X) in *.
    assert (Ha : 2 ^ 53 * a <= k * X /\ - (k * X) <= 2 ^ 53 * a) by lia.
    destruct Ha as [Ha1 Ha2].
    apply (Z.mul_le_mono_nonneg_r _ _ (Zpos pn)) in Ha1; [|lia].
    apply (Z.mul_le_mono_nonneg_r _ _ (Zpos pn)) in Ha2; [|lia].
    unfold a in *. split; lia.
Qed.

Lemma Zsum_nonneg l : (forall x, In x l -> 0 <= x) -> 0 <= Zsum l.
Proof.
  induction l as [|x l IH]; intros H; cbn [Zsum fold_right]; [lia|].
  assert (0 <= x) by (apply H; now left).
  assert (0 <= Zsum l) by (apply IH; intros y Hy; apply H; now right).
  unfold Zsum in *. lia.
Qed.

Lemma format_1f_not_nan s m e tail : (format_1f (S754_finite s m e) ++ tail)%string <> "nan weeks".
Proof.
  unfold format_1f, string_of_nonneg.
  destruct s; [discriminate|]. cbn [String.append].
  destruct (N.to_uint (Z.to_N (tenths m e / 10))); cbn; discriminate.
Qed.

(** X15: for a non-empty filtered table with non-negative weeks on
    chart (the total and the number of records below [2 ^ 53]), the
    average shown is a finite binary64 number, never NaN, within a
    relative error of [2 ^ -53] of the exact mean, and the metric text
    is not [nan weeks]. *)
Theorem avg_weeks_accuracy fd :
  fd <> [] ->
  (forall r, In r fd -> 0 <= weeks_on_chart r) ->
  Zsum (map weeks_on_chart fd) < 2 ^ 53 ->
  count_rows fd < 2 ^ 53 ->
  is_finite (avg_weeks fd) = true
  /\ (Qabs (SF2Q (avg_weeks fd)
            - (Zsum (map weeks_on_chart fd) # Z.to_pos (count_rows fd)))
      <= (Zsum (map weeks_on_chart fd) # Z.to_pos (count_rows fd)) * (1 # 2 ^ 53))%Q
  /\ avg_weeks_metric fd <> "nan weeks".
Proof.
  intros Hne Hw Hs Hn. unfold avg_weeks_metric, avg_weeks.
  assert (Hn0 : 0 < count_rows fd).
  { destruct fd as [|r fd]; [contradiction|]. apply (count_rows_pos _ r). now left. }
  assert (Hs0 : 0 <= Zsum (map weeks_on_chart fd)).
  { apply Zsum_nonneg. intros x Hx. apply in_map_iff in Hx.
    destruct Hx as (r & <- & Hr). now apply Hw. }
  set (s := Zsum (map weeks_on_chart fd)) in *. set (n := count_rows fd) in *.
  destruct (Z.eq_dec s 0) as [E|E].
  - rewrite E, ratio_zero by lia. split; [reflexivity|]. split; [|discriminate].
    apply Qabs_Qle_condition.
    unfold Qle, Qminus, Qplus, Qopp, Qmult; cbn [Qnum Qden SF2Q]. lia.
  - destruct (ratio_error_pos s n) as [Hf He]; try lia.
    split; [exact Hf|]. split; [exact He|].
    destruct (ratio_spec_pos s n) as (m & e & -> & _); try lia.
    apply format_1f_not_nan.
Qed.

Lemma avg_weeks_accuracy_witness :
  is_finite (avg_weeks example_data) = true.
Proof.
  refine (proj1 (avg_weeks_accuracy example_data _ _ _ _)).
  - discriminate.
  - intros r [<-|[<-|[<-|[<-|[]]]]]; cbn; lia.
  - reflexivity.
  - reflexivity.
Defined.

(** ** Axis titles *)

Lemma title_char_no_underscore (c : ascii) (b : bool) :
  let c' := if Ascii.eqb c "_"%char then " "%char else c in
  let cased := is_lower c' || is_upper c' in
  (if cased then (if b then to_lower c' else to_upper c') else c') <> "_"%char.
Proof.
  destruct c as [[] [] [] [] [] [] [] []]; destruct b; vm_compute; discriminate.
Qed.

Lemma title_from_no_underscore s : forall b i,
  String.get i (title_from b (replace_underscore s)) <> Some "_"%char.
Proof.
  induction s as [|c s IH]; intros b i; cbn [replace_underscore title_from String.get].
  - discriminate.
  - destruct i as [|i].
    + intros [= E]. exact (title_char_no_underscore c b E).
    + apply IH.
Qed.

Lemma title_from_length s : forall b,
  String.length (title_from b s) = String.length s.
Proof.
  induction s as [|c s IH]; intros b; cbn [title_from String.length]; [reflexivity|].
  now rewrite IH.
Qed.

Lemma replace_underscore_length s :
  String.length (replace_underscore s) = String.length s.
Proof.
  induction s as [|c s IH]; cbn [replace_underscore String.length]; [reflexivity|].
  now rewrite IH.
Qed.

(** X16: the title of an axis has as many characters as the field
    name and holds no underscore; the chart's x and y titles are the
    field names so rewritten. *)
Theorem axis_title_spec fd x_axis y_axis hue_var filter_year :
  String.length (title (replace_underscore x_axis)) = String.length x_axis
  /\ (forall i, String.get i (title (replace_underscore x_axis)) <> Some "_"%char)
  /\ exists spec,
       chart fd x_axis y_axis hue_var filter_year = Returned spec
       /\ ch_title (cs_x spec) = title (replace_underscore x_axis)
       /\ ch_title (cs_y spec) = title (replace_underscore y_axis).
Proof.
  split; [|split].
  - unfold title. now rewrite title_from_length, replace_underscore_length.
  - intros i. apply title_from_no_underscore.
  - eexists. split; [reflexivity|]. split; reflexivity.
Qed.

(** ** The initial view *)

(** X17: with every widget at its default (both years, every genre,
    a minimum of 0 weeks) and no negative [weeks_on_chart] in the
    dataset, the filtered table holds exactly the records of 1969 and
    of 2019, in the order of the dataset. *)
Theorem default_view ds :
  (forall r, In r ds -> 0 <= weeks_on_chart r) ->
  filtered_data ds (selected_years (default_picks year_options))
    (selected_genres ds (default_picks (unique (map genre_full ds)))) 0
  = filter (fun r => (year r =? 1969) || (year r =? 2019)) ds.
Proof.
  intros Hw. unfold selected_genres. rewrite multiselect_default.
  unfold filtered_data. apply filter_ext_in. intros r Hr. unfold mask.
  assert (G : isin_str (genre_full r) (unique (map genre_full ds)) = true).
  { apply isin_str_In. unfold unique.
    apply (distinct_In _ String.eqb_eq), in_map. exact Hr. }
  assert (W : (0 <=? weeks_on_chart r) = true) by (apply Z.leb_le; now apply Hw).
  rewrite G, W, !andb_true_r. cbn. now rewrite orb_false_r.
Qed.

Lemma default_view_witness :
  filtered_data example_data (selected_years (default_picks year_options))
    (selected_genres example_data
       (default_picks (unique (map genre_full example_data)))) 0
  = example_data.
Proof.
  refine (eq_trans (default_view example_data _) _).
  - intros r [<-|[<-|[<-|[<-|[]]]]]; cbn; lia.
  - reflexivity.
Defined.
